(** * simba.preprocessing.preprocess: a shallow embedding

    The module works on an annotated data matrix [adata] (rows are samples,
    columns are features) which every function updates in place.  The
    embedding threads that object through a state-and-exception monad,
    together with the text printed so far and the calls made to the elbow
    locator of [simba.preprocessing._utils].

    Numbers: Python integers and floats are idealised as one type [num] of
    exact rationals extended with the two infinities and NaN, so that
    division by zero and comparisons against NaN behave as numpy's do.
    Rounding, signed zeros and integer overflow are not modelled. *)

From Stdlib Require Import QArith Qcanon Ascii String.
From stdpp Require Import gmap strings list fin_maps numbers pretty sorting.

Open Scope string_scope.

(** ** Numbers *)

Inductive num := Fin (q : Qc) | PInf | NInf | NaN.

Global Instance num_eq_dec : EqDecision num.
Proof. solve_decision. Defined.

Definition num_of_Z (z : Z) : num := Fin (Qc_of_Z z).
Definition num_of_nat (n : nat) : num := num_of_Z (Z.of_nat n).
Definition num_of_bool (b : bool) : num := num_of_Z (if b then 1 else 0).

Definition num_add (a b : num) : num :=
  match a, b with
  | NaN, _ | _, NaN => NaN
  | Fin x, Fin y => Fin (x + y)%Qc
  | PInf, NInf | NInf, PInf => NaN
  | PInf, _ | _, PInf => PInf
  | NInf, _ | _, NInf => NInf
  end.

Definition signed_inf (c : comparison) : num :=
  match c with Gt => PInf | Lt => NInf | Eq => NaN end.

Definition num_mul (a b : num) : num :=
  match a, b with
  | NaN, _ | _, NaN => NaN
  | Fin x, Fin y => Fin (x * y)%Qc
  | PInf, Fin y | Fin y, PInf => signed_inf (y ?= 0)%Qc
  | NInf, Fin y | Fin y, NInf => signed_inf (0 ?= y)%Qc
  | PInf, PInf | NInf, NInf => PInf
  | PInf, NInf | NInf, PInf => NInf
  end.

(** True division as numpy performs it on arrays: a zero divisor gives an
    infinity or NaN (and a warning), never an exception. *)
Definition num_div (a b : num) : num :=
  match a, b with
  | NaN, _ | _, NaN => NaN
  | Fin x, Fin y =>
      if decide (y = 0%Qc) then signed_inf (x ?= 0)%Qc else Fin (x / y)%Qc
  | Fin _, (PInf | NInf) => Fin 0%Qc
  | PInf, Fin y => if decide (y < 0)%Qc then NInf else PInf
  | NInf, Fin y => if decide (y < 0)%Qc then PInf else NInf
  | (PInf | NInf), (PInf | NInf) => NaN
  end.

(** [a >= b]; every comparison with NaN is false. *)
Definition num_ge (a b : num) : bool :=
  match a, b with
  | NaN, _ | _, NaN => false
  | Fin x, Fin y => bool_decide (y ≤ x)%Qc
  | PInf, _ | _, NInf => true
  | _, PInf | NInf, _ => false
  end.

Definition num_le (a b : num) : bool := num_ge b a.

Definition num_abs (a : num) : num :=
  match a with
  | Fin x => if decide (x < 0)%Qc then Fin (- x)%Qc else Fin x
  | PInf | NInf => PInf
  | NaN => NaN
  end.

(** [.astype(int)]: truncation toward zero; a non-finite value becomes the
    smallest 64-bit integer, as numpy's cast does on x86-64. *)
Definition astype_int (a : num) : num :=
  match a with
  | Fin x => num_of_Z (Z.quot (Qnum (this x)) (Z.pos (Qden (this x))))
  | _ => num_of_Z (- 2 ^ 63)
  end.

(** ** Arrays *)

Definition np_sum (l : list num) : num := foldr num_add (Fin 0%Qc) l.

Definition np_column (j : nat) (rows : list (list num)) : list num :=
  map (λ r, default (Fin 0%Qc) (r !! j)) rows.

(** [M.sum(axis=1)] and [M.sum(axis=0)]; the number of columns of a
    matrix without rows comes from its shape. *)
Definition sum_axis1 (rows : list (list num)) : list num := map np_sum rows.
Definition sum_axis0 (ncols : nat) (rows : list (list num)) : list num :=
  map (λ j, np_sum (np_column j rows)) (seq 0 ncols).

(** [M >= cutoff], an array of booleans that sums as 0 and 1. *)
Definition ge_cutoff (cutoff : num) (rows : list (list num)) : list (list num) :=
  map (map (λ x, num_of_bool (num_ge x cutoff))) rows.

(** Boolean-mask indexing [l[mask]]. *)
Fixpoint mask_filter {A} (mask : list bool) (l : list A) : list A :=
  match mask, l with
  | b :: mask', x :: l' =>
      if b then x :: mask_filter mask' l' else mask_filter mask' l'
  | _, _ => []
  end.

(** Elementwise [&] of two boolean arrays of one length. *)
Definition np_and (a b : list bool) : list bool := zip_with andb a b.

(** A two-dimensional array that remembers its second dimension when it
    has no rows. *)
Record ndarray := mk_ndarray { nd_rows : list (list num); nd_ncols : nat }.

Definition nd_shape0 (m : ndarray) : nat := length (nd_rows m).

(** A column of a metadata table. *)
Inductive column := NumCol (l : list num) | BoolCol (l : list bool).

Definition col_values (c : column) : list num :=
  match c with
  | NumCol l => l
  | BoolCol l => map num_of_bool l
  end.

Definition col_filter (mask : list bool) (c : column) : column :=
  match c with
  | NumCol l => NumCol (mask_filter mask l)
  | BoolCol l => BoolCol (mask_filter mask l)
  end.

(** ** The annotated data matrix *)

(** The dictionary [adata.uns['pca']]: each of its keys is present or not;
    the value under ['n_pcs'] is [None] or an integer. *)
Record pca_dict := mk_pca_dict {
  variance : option (list num);
  variance_ratio : option (list num);
  n_pcs : option (option Z);
  features : option (gmap string (list nat))
}.

Record AnnData := mk_AnnData {
  X : list (list num);
  obs_names : list string;
  var_names : list string;
  obs : gmap string column;
  var : gmap string column;
  layers : gmap string (list (list num));
  obsm : gmap string ndarray;
  varm : gmap string ndarray;
  uns : gmap string pca_dict
}.

Definition shape0 (a : AnnData) : nat := length (obs_names a).
Definition shape1 (a : AnnData) : nat := length (var_names a).

Definition set_X (v : list (list num)) (a : AnnData) : AnnData :=
  mk_AnnData v (obs_names a) (var_names a) (obs a) (var a) (layers a)
             (obsm a) (varm a) (uns a).
Definition set_obs (v : gmap string column) (a : AnnData) : AnnData :=
  mk_AnnData (X a) (obs_names a) (var_names a) v (var a) (layers a)
             (obsm a) (varm a) (uns a).
Definition set_var (v : gmap string column) (a : AnnData) : AnnData :=
  mk_AnnData (X a) (obs_names a) (var_names a) (obs a) v (layers a)
             (obsm a) (varm a) (uns a).
Definition set_layers (v : gmap string (list (list num))) (a : AnnData) : AnnData :=
  mk_AnnData (X a) (obs_names a) (var_names a) (obs a) (var a) v
             (obsm a) (varm a) (uns a).
Definition set_uns (v : gmap string pca_dict) (a : AnnData) : AnnData :=
  mk_AnnData (X a) (obs_names a) (var_names a) (obs a) (var a) (layers a)
             (obsm a) (varm a) v.

Definition nd_filter_rows (mask : list bool) (m : ndarray) : ndarray :=
  mk_ndarray (mask_filter mask (nd_rows m)) (nd_ncols m).

(** [adata._inplace_subset_obs(mask)]: keeps the samples the mask selects,
    in the matrix, the layers, and everything aligned to the sample axis. *)
Definition inplace_subset_obs (mask : list bool) (a : AnnData) : AnnData :=
  mk_AnnData (mask_filter mask (X a))
             (mask_filter mask (obs_names a))
             (var_names a)
             (col_filter mask <$> obs a)
             (var a)
             (mask_filter mask <$> layers a)
             (nd_filter_rows mask <$> obsm a)
             (varm a)
             (uns a).

(** [adata._inplace_subset_var(mask)]: the same along the feature axis. *)
Definition inplace_subset_var (mask : list bool) (a : AnnData) : AnnData :=
  mk_AnnData (map (mask_filter mask) (X a))
             (obs_names a)
             (mask_filter mask (var_names a))
             (obs a)
             (col_filter mask <$> var a)
             (map (mask_filter mask) <$> layers a)
             (obsm a)
             (nd_filter_rows mask <$> varm a)
             (uns a).

(** ** Effects *)

Inductive exn :=
  | KeyError (key : string)
  | TypeError (msg : string)
  | ValueError (msg : string)
  | IndexError
  | OtherError (msg : string).

(** The keyword arguments of one call to [locate_elbow].  An argument the
    caller does not pass is [None] here and takes the locator's default. *)
Record ElbowCall := mk_ElbowCall {
  ec_x : list nat;
  ec_y : list num;
  ec_S : num;
  ec_min_elbow : num;
  ec_curve : option string;
  ec_direction : option string;
  ec_online : option bool;
  ec_kwargs : gmap string num
}.

Record World := mk_World {
  adata : AnnData;
  elbow_calls : list ElbowCall;
  stdout : list string
}.

Definition M (A : Type) : Type := World → (exn + A) * World.

Global Instance M_ret : MRet M := λ A x w, (inr x, w).
Global Instance M_bind : MBind M := λ A B f m w,
  match m w with
  | (inl e, w') => (inl e, w')
  | (inr x, w') => f x w'
  end.

Definition raise {A} (e : exn) : M A := λ w, (inl e, w).
Definition get_adata : M AnnData := λ w, (inr (adata w), w).
Definition modify_adata (f : AnnData → AnnData) : M unit :=
  λ w, (inr (), mk_World (f (adata w)) (elbow_calls w) (stdout w)).
Definition print (line : string) : M unit :=
  λ w, (inr (), mk_World (adata w) (elbow_calls w) (stdout w ++ [line])).
Definition lift_result {A} (r : exn + A) : M A := λ w, (r, w).
Definition lift_option {A} (e : exn) (o : option A) : M A :=
  match o with Some x => mret x | None => raise e end.

Definition set_var_col (key : string) (c : column) : M unit :=
  modify_adata (λ a, set_var (<[key := c]> (var a)) a).
Definition set_obs_col (key : string) (c : column) : M unit :=
  modify_adata (λ a, set_obs (<[key := c]> (obs a)) a).

(** ** normalize *)

(** Total-count normalisation,
    [(np.divide(X.T, X.sum(axis=1)).T) * scale_factor]. *)
Definition lib_size (scale_factor : num) (rows : list (list num)) : list (list num) :=
  map (λ r, map (λ x, num_mul (num_div x (np_sum r)) scale_factor) r) rows.

Section Normalize.
(** [cal_tf_idf] of [_utils], which is not among the sources: a function
    of the matrix. *)
Variable cal_tf_idf : list (list num) → list (list num).

Definition normalize (method : string) (scale_factor : num) (save_raw : bool) : M unit :=
  if negb (bool_decide (method ∈ ["lib_size"; "tf_idf"])) then
    raise (ValueError ("unrecognized method '" +:+ method +:+ "'"))
  else
    (if save_raw
     then modify_adata (λ a, set_layers (<["raw" := X a]> (layers a)) a)
     else mret ());;
    (if bool_decide (method = "lib_size")
     then modify_adata (λ a, set_X (lib_size scale_factor (X a)) a)
     else mret ());;
    (if bool_decide (method = "tf_idf")
     then modify_adata (λ a, set_X (cal_tf_idf (X a)) a)
     else mret ()).
End Normalize.

(** ** Quality-control metrics *)

(** The sparse-matrix conversion at the head of the three functions changes
    the storage of [adata.X], not its entries, and is not modelled. *)
Definition cal_qc (expr_cutoff : num) : M unit :=
  a ← get_adata;
  let n_counts := sum_axis0 (shape1 a) (X a) in
  set_var_col "n_counts" (NumCol n_counts);;
  let n_samples := sum_axis0 (shape1 a) (ge_cutoff expr_cutoff (X a)) in
  set_var_col "n_samples" (NumCol n_samples);;
  set_var_col "pct_samples"
    (NumCol (map (λ v, num_div v (num_of_nat (shape0 a))) n_samples));;
  let n_counts := sum_axis1 (X a) in
  set_obs_col "n_counts" (NumCol n_counts);;
  let n_features := sum_axis1 (ge_cutoff expr_cutoff (X a)) in
  set_obs_col "n_features" (NumCol n_features);;
  set_obs_col "pct_features"
    (NumCol (map (λ v, num_div v (num_of_nat (shape1 a))) n_features)).

(** A compiled pattern [re.compile(p, flags=re.IGNORECASE)] for [p] the
    anchor [^] followed by a literal prefix, given as text or as bytes. *)
Inductive regex := RegexStr (prefix : string) | RegexBytes (prefix : string).

Definition ascii_lower (c : ascii) : ascii :=
  let n := nat_of_ascii c in
  if bool_decide (65 ≤ n ≤ 90)%nat then ascii_of_nat (n + 32) else c.

Fixpoint string_lower (s : string) : string :=
  match s with
  | EmptyString => EmptyString
  | String c s' => String (ascii_lower c) (string_lower s')
  end.

(** [r.match(subject)] on a text subject: whether it matched; a bytes
    pattern cannot be used on text. *)
Definition re_match (r : regex) (subject : string) : exn + bool :=
  match r with
  | RegexStr p => inr (String.prefix (string_lower p) (string_lower subject))
  | RegexBytes _ =>
      inl (TypeError "cannot use a bytes pattern on a string-like object")
  end.

(** [list(filter(r.match, names))]. *)
Fixpoint filter_match (r : regex) (names : list string) : M (list string) :=
  match names with
  | [] => mret []
  | s :: rest =>
      b ← lift_result (re_match r s);
      kept ← filter_match r rest;
      mret (if (b : bool) then s :: kept else kept)
  end.

(** [adata[:, names].X.sum(axis=1)]: per sample, the total over the features
    carrying one of the names. *)
Definition sum_named_columns (names : list string) (a : AnnData) : list num :=
  sum_axis1 (map (mask_filter (map (λ nm, bool_decide (nm ∈ names)) (var_names a))) (X a)).

Definition cal_qc_rna (expr_cutoff : num) : M unit :=
  a ← get_adata;
  let n_counts := sum_axis0 (shape1 a) (X a) in
  set_var_col "n_counts" (NumCol n_counts);;
  let n_cells := sum_axis0 (shape1 a) (ge_cutoff expr_cutoff (X a)) in
  set_var_col "n_cells" (NumCol n_cells);;
  set_var_col "pct_cells"
    (NumCol (map (λ v, num_div v (num_of_nat (shape0 a))) n_cells));;
  let n_counts := sum_axis1 (X a) in
  set_obs_col "n_counts" (NumCol n_counts);;
  let n_features := sum_axis1 (ge_cutoff expr_cutoff (X a)) in
  set_obs_col "n_genes" (NumCol n_features);;
  set_obs_col "pct_genes"
    (NumCol (map (λ v, num_div v (num_of_nat (shape1 a))) n_features));;
  let r := RegexBytes "MT-" in
  mt_genes ← filter_match r (var_names a);
  if bool_decide (0 < length mt_genes)%nat then
    let n_counts_mt := sum_named_columns mt_genes a in
    set_obs_col "pct_mt" (NumCol (zip_with num_div n_counts_mt n_counts))
  else
    set_obs_col "pct_mt" (NumCol (replicate (shape0 a) (num_of_Z 0))).

Definition cal_qc_atac (expr_cutoff : num) : M unit :=
  a ← get_adata;
  let n_counts := sum_axis0 (shape1 a) (X a) in
  set_var_col "n_counts" (NumCol n_counts);;
  let n_cells := sum_axis0 (shape1 a) (ge_cutoff expr_cutoff (X a)) in
  set_var_col "n_cells" (NumCol n_cells);;
  set_var_col "pct_cells"
    (NumCol (map (λ v, num_div v (num_of_nat (shape0 a))) n_cells));;
  let n_counts := sum_axis1 (X a) in
  set_obs_col "n_counts" (NumCol n_counts);;
  let n_features := sum_axis1 (ge_cutoff expr_cutoff (X a)) in
  set_obs_col "n_peaks" (NumCol n_features);;
  set_obs_col "pct_peaks"
    (NumCol (map (λ v, num_div v (num_of_nat (shape1 a))) n_features)).

(** ** Threshold filters *)

(** The six filters share one body.  Three of them work along the sample
    axis (on [adata.obs], with [np.sum(..., axis=1)], the number of features
    as denominator and [_inplace_subset_obs]) and three along the feature
    axis (on [adata.var], with [np.sum(..., axis=0)], the number of samples
    and [_inplace_subset_var]); they differ further in the keys of their
    columns and in the wording of what they print. *)
Inductive axis := Samples | Features.

Definition table (ax : axis) (a : AnnData) : gmap string column :=
  match ax with Samples => obs a | Features => var a end.
Definition set_table (ax : axis) (v : gmap string column) (a : AnnData) : AnnData :=
  match ax with Samples => set_obs v a | Features => set_var v a end.
Definition axis_names (ax : axis) (a : AnnData) : list string :=
  match ax with Samples => obs_names a | Features => var_names a end.
Definition sum_along (ax : axis) (a : AnnData) (rows : list (list num)) : list num :=
  match ax with
  | Samples => sum_axis1 rows
  | Features => sum_axis0 (shape1 a) rows
  end.
Definition other_size (ax : axis) (a : AnnData) : nat :=
  match ax with Samples => shape1 a | Features => shape0 a end.
Definition inplace_subset (ax : axis) (mask : list bool) (a : AnnData) : AnnData :=
  match ax with
  | Samples => inplace_subset_obs mask a
  | Features => inplace_subset_var mask a
  end.

(** A metadata column is taken from the table when its key is there, and
    computed from the matrix and stored otherwise. *)
Definition cached (ax : axis) (key : string) (fresh : AnnData → list num) : M (list num) :=
  a ← get_adata;
  match table ax a !! key with
  | Some c => mret (col_values c)
  | None =>
      modify_adata (λ a, set_table ax (<[key := NumCol (fresh a)]> (table ax a)) a);;
      mret (fresh a)
  end.

(** [sum(list(map(lambda x: x is None, [...]))) == 6] on the six thresholds. *)
Definition all_unset (thresholds : list (option num)) : bool :=
  bool_decide (length (filter (λ t, t = None) thresholds) = 6%nat).

(** One step
    [if(t is not None): print(msg); subset = (values ? t) & subset]. *)
Definition threshold (msg : string) (thr : option num) (test : num → num → bool)
    (values : list num) (subset : list bool) : M (list bool) :=
  match thr with
  | None => mret subset
  | Some t => print msg;; mret (np_and (map (λ v, test v t) values) subset)
  end.

Definition filter_axis (ax : axis) (based after n_key pct_key : string)
    (shape_line : nat → nat → string)
    (min_n max_n min_pct max_pct min_n_counts max_n_counts : option num)
    (expr_cutoff : num) : M unit :=
  n_counts ← cached ax "n_counts"
        (λ a, map astype_int (sum_along ax a (X a)));
  n ← cached ax n_key
        (λ a, map astype_int (sum_along ax a (ge_cutoff expr_cutoff (X a))));
  pct ← cached ax pct_key
        (λ a, map (λ v, num_div v (num_of_nat (other_size ax a))) n);
  if all_unset [min_n; min_pct; min_n_counts; max_n; max_pct; max_n_counts] then
    print "No filtering"
  else
    a ← get_adata;
    let subset := replicate (length (axis_names ax a)) true in
    subset ← threshold (based +:+ "min_" +:+ n_key) min_n num_ge n subset;
    subset ← threshold (based +:+ "max_" +:+ n_key) max_n num_le n subset;
    subset ← threshold (based +:+ "min_" +:+ pct_key) min_pct num_ge pct subset;
    subset ← threshold (based +:+ "max_" +:+ pct_key) max_pct num_le pct subset;
    subset ← threshold (based +:+ "min_n_counts") min_n_counts num_ge n_counts subset;
    subset ← threshold (based +:+ "max_n_counts") max_n_counts num_le n_counts subset;
    modify_adata (inplace_subset ax subset);;
    print after;;
    a ← get_adata;
    print (shape_line (shape0 a) (shape1 a)).

Definition filter_samples :=
  filter_axis Samples "filter samples based on "
    "after filtering out low-quality samples: " "n_features" "pct_features"
    (λ n m, pretty n +:+ " samples, " +:+ pretty m +:+ " feature").

Definition filter_cells_rna :=
  filter_axis Samples "filter cells based on "
    "after filtering out low-quality cells: " "n_genes" "pct_genes"
    (λ n m, pretty n +:+ " cells,  " +:+ pretty m +:+ " genes").

Definition filter_cells_atac :=
  filter_axis Samples "filter cells based on "
    "after filtering out low-quality cells: " "n_peaks" "pct_peaks"
    (λ n m, pretty n +:+ " cells,  " +:+ pretty m +:+ " peaks").

Definition filter_genes :=
  filter_axis Features "Filter genes based on "
    "After filtering out low-expressed genes: " "n_cells" "pct_cells"
    (λ n m, pretty n +:+ " cells, " +:+ pretty m +:+ " genes").

Definition filter_peaks :=
  filter_axis Features "Filter peaks based on "
    "After filtering out low-expressed peaks: " "n_cells" "pct_cells"
    (λ n m, pretty n +:+ " cells, " +:+ pretty m +:+ " peaks").

Definition filter_features :=
  filter_axis Features "Filter features based on "
    "After filtering out low-expressed features: " "n_samples" "pct_samples"
    (λ n m, pretty n +:+ " samples,  " +:+ pretty m +:+ " features").

(** ** Selection of components and of their features *)

(** The order [np.sort] puts numbers in: NaN after everything else. *)
Definition num_sort_le (a b : num) : bool :=
  match a, b with
  | _, NaN => true
  | NaN, _ => false
  | _, _ => num_ge b a
  end.

Definition np_sort (l : list num) : list num :=
  merge_sort (λ a b, Is_true (num_sort_le a b)) l.

(** [np.unique] of a list of indices: its distinct elements, ascending. *)
Definition np_unique (l : list nat) : list nat :=
  merge_sort le (remove_dups l).

(** The slice [l[:stop]]: the whole list for [None], a count from the end
    for a negative bound. *)
Definition py_slice_to {A} (stop : option Z) (l : list A) : list A :=
  match stop with
  | None => l
  | Some k =>
      if bool_decide (0 ≤ k)%Z then take (Z.to_nat k) l
      else take (length l - Z.to_nat (- k)) l
  end.

(** [for x in xs: acc = body(x, acc)]. *)
Fixpoint for_loop {A B} (body : A → B → M B) (xs : list A) (acc : B) : M B :=
  match xs with
  | [] => mret acc
  | x :: rest => acc' ← body x acc; for_loop body rest acc'
  end.

Definition set_n_pcs (v : option Z) (d : pca_dict) : pca_dict :=
  mk_pca_dict (variance d) (variance_ratio d) (Some v) (features d).
Definition set_features (v : gmap string (list nat)) (d : pca_dict) : pca_dict :=
  mk_pca_dict (variance d) (variance_ratio d) (n_pcs d) (Some v).

(** [adata.uns['pca']], and an assignment to one key of that dictionary. *)
Definition get_pca : M pca_dict :=
  a ← get_adata; lift_option (KeyError "pca") (uns a !! "pca").
Definition update_pca (f : pca_dict → pca_dict) : M unit :=
  d ← get_pca;
  modify_adata (λ a, set_uns (<["pca" := f d]> (uns a)) a).

(** The key [f'pc_{i}']. *)
Definition pc_key (i : nat) : string := "pc_" +:+ pretty i.

(** [adata.var.loc[labels, 'top_pcs'] = True] on a column aligned to
    [index]: every row whose label is among [labels] is set. *)
Definition loc_set_true (labels index : list string) (c : column) : column :=
  match c with
  | BoolCol l =>
      BoolCol (zip_with (λ nm b, if bool_decide (nm ∈ labels) then true else b) index l)
  | NumCol l =>
      NumCol (zip_with (λ nm v, if bool_decide (nm ∈ labels) then num_of_bool true else v) index l)
  end.

(** The two statements after the loop of [select_pcs_features]:
    [adata.var['top_pcs'] = False] and
    [adata.var.loc[adata.var_names[np.unique(ids_features)], 'top_pcs'] = True].
    [np.unique] of an empty list is an array of floats, which cannot index
    the names. *)
Definition write_top_pcs (ids_features : list nat) : M unit :=
  a ← get_adata;
  set_var_col "top_pcs" (BoolCol (replicate (shape1 a) false));;
  let ids := np_unique ids_features in
  if bool_decide (ids = []) then raise IndexError
  else
    labels ← lift_option IndexError (mapM (λ j, var_names a !! j) ids);
    a ← get_adata;
    top_pcs ← lift_option (KeyError "top_pcs") (var a !! "top_pcs");
    set_var_col "top_pcs" (loc_set_true labels (var_names a) top_pcs).

Section Selection.
(** [locate_elbow] of [_utils], which is not among the sources: from the
    arguments of a call, an exception, no elbow ([None]) or an index. *)
Variable locate_elbow : ElbowCall → exn + option Z.
(** [np.argsort]: numpy leaves the order of equal entries open. *)
Variable np_argsort : list num → list nat.

Definition call_locate_elbow (c : ElbowCall) : M (option Z) :=
  λ w, (locate_elbow c, mk_World (adata w) (elbow_calls w ++ [c]) (stdout w)).

Definition select_pcs (n_pcs : option Z) (S : num) (curve direction : string)
    (online : bool) (min_elbow : option num) (kwargs : gmap string num) : M unit :=
  match n_pcs with
  | None =>
      a ← get_adata;
      X_pca ← lift_option (KeyError "X_pca") (obsm a !! "X_pca");
      let n_components := nd_ncols X_pca in
      let min_elbow :=
        default (num_div (num_of_nat n_components) (num_of_Z 10)) min_elbow in
      d ← get_pca;
      y ← lift_option (KeyError "variance_ratio") (variance_ratio d);
      n_pcs ← call_locate_elbow
                (mk_ElbowCall (seq 0 n_components) y S min_elbow
                              None (Some direction) (Some online) kwargs);
      update_pca (set_n_pcs n_pcs)
  | Some n => update_pca (set_n_pcs (Some n))
  end.

(** One round of the loop of [select_pcs_features], for component [i]. *)
Definition select_pcs_features_body (S min_elbow : num)
    (kwargs : gmap string num) (n_features : nat)
    (i : nat) (ids_features : list nat) : M (list nat) :=
  a ← get_adata;
  PCs ← lift_option (KeyError "PCs") (varm a !! "PCs");
  if bool_decide (nd_ncols PCs ≤ i)%nat then raise IndexError
  else
    let loadings := map num_abs (np_column i (nd_rows PCs)) in
    elbow ← call_locate_elbow
              (mk_ElbowCall (seq 0 n_features) (rev (np_sort loadings))
                            S min_elbow None None None kwargs);
    let ids_features_i := py_slice_to elbow (rev (np_argsort loadings)) in
    d ← get_pca;
    pcs ← lift_option (KeyError "features") (features d);
    update_pca (set_features (<[pc_key i := ids_features_i]> pcs));;
    mret (ids_features ++ ids_features_i)%list.

Definition select_pcs_features (S : num) (curve direction : string)
    (online : bool) (min_elbow : option num) (kwargs : gmap string num) : M unit :=
  d ← get_pca;
  n_pcs ← lift_option (KeyError "n_pcs") (n_pcs d);
  a ← get_adata;
  PCs ← lift_option (KeyError "PCs") (varm a !! "PCs");
  let n_features := nd_shape0 PCs in
  let min_elbow :=
    default (num_div (num_of_nat n_features) (num_of_Z 10)) min_elbow in
  update_pca (set_features ∅);;
  match n_pcs with
  | None =>
      raise (TypeError "'NoneType' object cannot be interpreted as an integer")
  | Some n =>
      ids_features ← for_loop
                       (select_pcs_features_body S min_elbow kwargs n_features)
                       (seq 0 (Z.to_nat n)) [];
      write_top_pcs ids_features
  end.
End Selection.

(** ** Predicates used in the statements *)

Global Instance column_eq_dec : EqDecision column.
Proof. solve_decision. Defined.

(** What a filter leaves alone when it subsets nothing: the matrix, the
    names along both axes, the layers, the arrays aligned to an axis, the
    unstructured store and the log of locator calls. *)
Definition untouched (w w' : World) : Prop :=
  X (adata w') = X (adata w) ∧ obs_names (adata w') = obs_names (adata w) ∧
  var_names (adata w') = var_names (adata w) ∧ layers (adata w') = layers (adata w) ∧
  obsm (adata w') = obsm (adata w) ∧ varm (adata w') = varm (adata w) ∧
  uns (adata w') = uns (adata w) ∧ elbow_calls w' = elbow_calls w.

(** What the two selection functions leave alone: everything but the
    unstructured store, the feature table and the log of locator calls. *)
Definition untouched_but_uns (w w' : World) : Prop :=
  X (adata w') = X (adata w) ∧ obs_names (adata w') = obs_names (adata w) ∧
  var_names (adata w') = var_names (adata w) ∧ layers (adata w') = layers (adata w) ∧
  obsm (adata w') = obsm (adata w) ∧ varm (adata w') = varm (adata w) ∧
  obs (adata w') = obs (adata w) ∧ stdout w' = stdout w.

(** The container's invariant along an axis: the matrix has one line, and
    every column of the table one entry, per name of the axis. *)
Definition aligned (ax : axis) (a : AnnData) : Prop :=
  match ax with
  | Samples => length (X a) = length (obs_names a)
  | Features => Forall (λ r, length r = length (var_names a)) (X a)
  end ∧
  ∀ k c, table ax a !! k = Some c → length (col_values c) = length (axis_names ax a).

Definition well_formed (a : AnnData) : Prop :=
  aligned Samples a ∧ aligned Features a.

(** The mask a threshold step leaves, and the mask the six steps of a
    filter build, in their order. *)
Definition apply_threshold (thr : option num) (test : num → num → bool)
    (values : list num) (subset : list bool) : list bool :=
  match thr with
  | None => subset
  | Some t => np_and (map (λ v, test v t) values) subset
  end.

Definition filter_mask (min_n max_n min_pct max_pct min_n_counts max_n_counts : option num)
    (n_counts n pct : list num) (size : nat) : list bool :=
  apply_threshold max_n_counts num_le n_counts
    (apply_threshold min_n_counts num_ge n_counts
       (apply_threshold max_pct num_le pct
          (apply_threshold min_pct num_ge pct
             (apply_threshold max_n num_le n
                (apply_threshold min_n num_ge n (replicate size true)))))).

Definition mask_sub (m s : list bool) : Prop :=
  ∀ i, m !! i = Some true → s !! i = Some true.

(** The list recorded under a key of [adata.uns['pca']['features']]. *)
Definition recorded (key : string) (w : World) : option (list nat) :=
  match uns (adata w) !! "pca" with
  | Some d =>
      match features d with
      | Some pcs => pcs !! key
      | None => None
      end
  | None => None
  end.

Definition count_true (c : option column) : nat :=
  match c with
  | Some (BoolCol l) => length (filter (λ b, b = true) l)
  | _ => 0
  end.

(** What the loop of [select_pcs_features] has gathered before component
    [s]: the keys of the recorded lists are those of earlier components, and
    the accumulated indices are the members of the recorded lists. *)
Definition gathered (s : nat) (acc : list nat) (w : World) : Prop :=
  ∃ d pcs,
    uns (adata w) !! "pca" = Some d ∧ features d = Some pcs
    ∧ (∀ key, is_Some (pcs !! key) → ∃ i, (i < s)%nat ∧ key = pc_key i)
    ∧ (∀ j, j ∈ acc ↔ ∃ i l, pcs !! pc_key i = Some l ∧ j ∈ l).


(** ** Concrete data for the examples *)

(** An argsort that keeps equal entries in their order of appearance. *)
Definition argsort_by_position (l : list num) : list nat :=
  fst <$> merge_sort (λ p q : nat * num, Is_true (num_sort_le (snd p) (snd q)))
                     (zip (seq 0 (length l)) l).

Definition ints (l : list Z) : list num := map num_of_Z l.

Definition empty_adata (rows : list (list num)) (samples features : list string) : AnnData :=
  mk_AnnData rows samples features ∅ ∅ ∅ ∅ ∅ ∅.

Definition start (a : AnnData) : World := mk_World a [] [].

(** The 3×3 count matrix [[0,2,0],[1,0,3],[4,0,0]]. *)
Definition counts_3x3 : AnnData :=
  empty_adata [ints [0; 2; 0]; ints [1; 0; 3]; ints [4; 0; 0]]%Z
              ["s0"; "s1"; "s2"] ["g0"; "g1"; "g2"].

(** Six features and two components; by absolute loading the first
    component ranks the features 0, 2, 3, 5, 4, 1 and the second
    3, 4, 5, 2, 0, 1. *)
Definition two_components : ndarray :=
  mk_ndarray [ints [9; 1]; ints [-1; 0]; ints [8; 2];
              ints [-7; 9]; ints [2; 8]; ints [3; -7]]%Z 2.

(** What [pca] leaves in [adata.uns['pca']] for two components, with the
    number of components and the per-component lists as given. *)
Definition pca_store (n : option (option Z))
    (pcs : option (gmap string (list nat))) : pca_dict :=
  mk_pca_dict (Some (ints [6; 4]%Z)) (Some (ints [6; 4]%Z)) n pcs.

Definition after_pca (features : list string) (d : pca_dict) : AnnData :=
  mk_AnnData [] [] features ∅ ∅ ∅
             {[ "X_pca" := mk_ndarray [] 2 ]}
             {[ "PCs" := two_components ]}
             {[ "pca" := d ]}.

Definition six_names : list string := ["g0"; "g1"; "g2"; "g3"; "g4"; "g5"].
(** The same six features when the first two carry one name. *)
Definition six_names_one_twice : list string := ["g0"; "g0"; "g2"; "g3"; "g4"; "g5"].

(** A locator that answers every call alike. *)
Definition locator_const (r : exn + option Z) : ElbowCall → exn + option Z := λ _, r.

(** A 10×5 count matrix whose samples 1, 3 and 5 have fewer than 5 counts. *)
Definition counts_10x5 : AnnData :=
  empty_adata
    [ints [1; 0; 2; 0; 3]; ints [0; 0; 1; 0; 0]; ints [2; 2; 2; 2; 2];
     ints [0; 1; 0; 1; 0]; ints [5; 0; 0; 0; 0]; ints [0; 0; 0; 0; 0];
     ints [1; 1; 1; 1; 1]; ints [3; 0; 4; 0; 1]; ints [0; 6; 0; 0; 0];
     ints [2; 0; 2; 0; 2]]%Z
    ["s0"; "s1"; "s2"; "s3"; "s4"; "s5"; "s6"; "s7"; "s8"; "s9"]
    ["g0"; "g1"; "g2"; "g3"; "g4"].

(** A run on the six features, under the names given, in which each of the
    two components keeps its three highest loadings. *)
Definition top3_run (names : list string) : (exn + ()) * World :=
  select_pcs_features (locator_const (inr (Some 3%Z))) argsort_by_position
    (num_of_Z 1) "convex" "decreasing" false None ∅
    (start (after_pca names (pca_store (Some (Some 2%Z)) None))).

(** ** pca *)

Definition set_obsm (v : gmap string ndarray) (a : AnnData) : AnnData :=
  mk_AnnData (X a) (obs_names a) (var_names a) (obs a) (var a) (layers a)
             v (varm a) (uns a).
Definition set_varm (v : gmap string ndarray) (a : AnnData) : AnnData :=
  mk_AnnData (X a) (obs_names a) (var_names a) (obs a) (var a) (layers a)
             (obsm a) v (uns a).

Definition set_variance (v : list num) (d : pca_dict) : pca_dict :=
  mk_pca_dict (Some v) (variance_ratio d) (n_pcs d) (features d).
Definition set_variance_ratio (v : list num) (d : pca_dict) : pca_dict :=
  mk_pca_dict (variance d) (Some v) (n_pcs d) (features d).

(** The arguments of [TruncatedSVD(...)], and what [svd.fit] leaves in the
    estimator: [components_] with one row per component and one column per
    feature, and the variance figures per component. *)
Record SvdParams := mk_SvdParams {
  svd_n_components : Z;
  svd_algorithm : string;
  svd_n_iter : Z;
  svd_random_state : Z;
  svd_tol : num
}.

Record SvdFit := mk_SvdFit {
  components_ : ndarray;
  explained_variance_ : list num;
  explained_variance_ratio_ : list num
}.

Definition np_dot (u v : list num) : num := np_sum (zip_with num_mul u v).

(** [svd.transform(X)], the product of [X] with the transpose of
    [components_]. *)
Definition svd_transform (svd : SvdFit) (rows : list (list num)) : ndarray :=
  mk_ndarray (map (λ r, map (np_dot r) (nd_rows (components_ svd))) rows)
             (nd_shape0 (components_ svd)).

(** [M.T]. *)
Definition nd_transpose (m : ndarray) : ndarray :=
  mk_ndarray (map (λ j, np_column j (nd_rows m)) (seq 0 (nd_ncols m)))
             (nd_shape0 m).

Section Pca.
(** [TruncatedSVD(...).fit] of scikit-learn: from the arguments and the
    matrix, an exception or the fitted estimator. *)
Variable truncated_svd_fit : SvdParams → list (list num) → exn + SvdFit.

(** The estimator is set up with [tol=0.0], not with the argument [tol].
    The container's check that an array stored in [obsm] or [varm] has one
    row per sample or per feature is not modelled. *)
Definition pca (n_components : Z) (algorithm : string) (n_iter random_state : Z)
    (tol : num) : M unit :=
  a ← get_adata;
  svd ← lift_result
          (truncated_svd_fit
             (mk_SvdParams n_components algorithm n_iter random_state (num_of_Z 0))
             (X a));
  modify_adata (λ a, set_obsm (<["X_pca" := svd_transform svd (X a)]> (obsm a)) a);;
  modify_adata (λ a, set_varm (<["PCs" := nd_transpose (components_ svd)]> (varm a)) a);;
  modify_adata (λ a, set_uns (<["pca" := mk_pca_dict None None None None]> (uns a)) a);;
  update_pca (set_variance (explained_variance_ svd));;
  update_pca (set_variance_ratio (explained_variance_ratio_ svd)).
End Pca.

(** ** Further predicates used in the statements *)

(** Whether a value lies within the bounds that are set. *)
Definition within (lo hi : option num) (v : num) : bool :=
  match lo with None => true | Some t => num_ge v t end
  && match hi with None => true | Some t => num_le v t end.

(** Whether a sample or feature with the given three metrics passes the six
    thresholds of a filter. *)
Definition passes_thresholds
    (min_n max_n min_pct max_pct min_n_counts max_n_counts : option num)
    (n_counts n pct : num) : bool :=
  within min_n max_n n && within min_pct max_pct pct
  && within min_n_counts max_n_counts n_counts.

(** [(values >= cutoff).sum()]. *)
Definition expressed (cutoff : num) (values : list num) : num :=
  np_sum (map (λ x, num_of_bool (num_ge x cutoff)) values).

(** The six filters with the axis they work along and the keys of their
    second and third column. *)
Definition filters_with_keys :=
  [(Samples, "n_features", "pct_features", filter_samples);
   (Samples, "n_genes", "pct_genes", filter_cells_rna);
   (Samples, "n_peaks", "pct_peaks", filter_cells_atac);
   (Features, "n_cells", "pct_cells", filter_genes);
   (Features, "n_cells", "pct_cells", filter_peaks);
   (Features, "n_samples", "pct_samples", filter_features)].

(** The axis a filter does not work along. *)
Definition other_axis (ax : axis) : axis :=
  match ax with Samples => Features | Features => Samples end.

(** What [_inplace_subset_obs] and [_inplace_subset_var] do to the matrix. *)
Definition subset_matrix (ax : axis) (mask : list bool) (rows : list (list num))
    : list (list num) :=
  match ax with
  | Samples => mask_filter mask rows
  | Features => map (mask_filter mask) rows
  end.

(** The call of the locator that [select_pcs_features] makes for component
    [i] of the loadings [P]. *)
Definition component_call (S min_elbow : num) (kwargs : gmap string num)
    (P : ndarray) (i : nat) : ElbowCall :=
  mk_ElbowCall (seq 0 (nd_shape0 P))
               (rev (np_sort (map num_abs (np_column i (nd_rows P)))))
               S min_elbow None None None kwargs.

(** ** Further concrete data *)

(** A fitted estimator with the two components of [two_components], one
    per row. *)
Definition two_fitted : SvdFit :=
  mk_SvdFit (mk_ndarray [ints [9; -1; 8; -7; 2; 3]; ints [1; 0; 2; 9; 8; -7]]%Z 6)
            (ints [6; 4]%Z) (ints [6; 4]%Z).

(** A fitting procedure that ends alike on every input. *)
Definition fit_const (r : exn + SvdFit) : SvdParams → list (list num) → exn + SvdFit :=
  λ _ _, r.

(** A fitting procedure that fails unless the tolerance is 0. *)
Definition fit_at_tolerance_zero (p : SvdParams) (rows : list (list num))
    : exn + SvdFit :=
  if decide (svd_tol p = num_of_Z 0) then inr two_fitted
  else inl (ValueError "tolerance").

(** Six features without samples. *)
Definition six_features : AnnData := empty_adata [] [] six_names.


(** The three functions that store quality-control metrics. *)
Definition qc_functions : list (num → M unit) := [cal_qc; cal_qc_rna; cal_qc_atac].

(** A lower bound [t'] that asks at least what [t] asks, and the same for
    upper bounds; an unset bound asks nothing. *)
Definition tighter_min (t t' : option num) : Prop :=
  match t, t' with
  | None, _ => True
  | Some a, Some b => num_ge b a = true
  | Some _, None => False
  end.

Definition tighter_max (t t' : option num) : Prop :=
  match t, t' with
  | None, _ => True
  | Some a, Some b => num_le b a = true
  | Some _, None => False
  end.


(** * Proofs *)

(** ** Running the monad *)

Lemma bind_inr {A B} (m : M A) (f : A → M B) w v w' :
  m w = (inr v, w') → (m ≫= f) w = f v w'.
Proof. intros H. unfold mbind, M_bind. rewrite H. reflexivity. Qed.

Lemma bind_inl {A B} (m : M A) (f : A → M B) w e w' :
  m w = (inl e, w') → (m ≫= f) w = (inl e, w').
Proof. intros H. unfold mbind, M_bind. rewrite H. reflexivity. Qed.

(** ** Filters with every threshold unset *)

Lemma untouched_refl w : untouched w w.
Proof. repeat split. Qed.

Lemma untouched_trans w1 w2 w3 : untouched w1 w2 → untouched w2 w3 → untouched w1 w3.
Proof. unfold untouched. intros H1 H2. intuition congruence. Qed.



(** ** Masks *)

Section Masks.
Context {A : Type}.
Implicit Types (m : list bool) (l : list A).

Lemma mask_filter_all_true k l :
  (length l ≤ k)%nat → mask_filter (replicate k true) l = l.
Proof.
  revert k. induction l as [|x l IH]; intros [|k] Hk; simpl in *; try done; try lia.
  f_equal. apply IH. lia.
Qed.

Lemma length_mask_filter {B} m l (l' : list B) :
  length l = length l' → length (mask_filter m l) = length (mask_filter m l').
Proof.
  revert l l'. induction m as [|b m IH]; intros [|x l] [|y l'] Hl; simpl in *; try done.
  destruct b; simpl; auto.
Qed.

Lemma mask_filter_map {B} (f : A → B) m l :
  mask_filter m (map f l) = map f (mask_filter m l).
Proof.
  revert l. induction m as [|b m IH]; intros [|x l]; simpl; try done.
  destruct b; simpl; by rewrite IH.
Qed.
End Masks.


Lemma mask_sub_refl m : mask_sub m m.
Proof. by intros i. Qed.

Lemma mask_sub_trans m1 m2 m3 : mask_sub m1 m2 → mask_sub m2 m3 → mask_sub m1 m3.
Proof. intros H1 H2 i Hi. auto. Qed.


Lemma np_and_true a b i :
  np_and a b !! i = Some true → a !! i = Some true ∧ b !! i = Some true.
Proof.
  unfold np_and. rewrite lookup_zip_with.
  destruct (a !! i) as [[]|], (b !! i) as [[]|]; simpl; by try split.
Qed.

Lemma apply_threshold_sub thr test v s : mask_sub (apply_threshold thr test v s) s.
Proof.
  destruct thr as [t|]; simpl; [|apply mask_sub_refl].
  intros i Hi. by apply np_and_true in Hi as [_ ?].
Qed.



(** ** One run of a filter *)

Lemma col_values_filter m c :
  col_values (col_filter m c) = mask_filter m (col_values c).
Proof. destruct c; simpl; [done|]. by rewrite mask_filter_map. Qed.

Lemma length_sum_along ax a rows :
  aligned ax a → length rows = length (X a) →
  length (sum_along ax a rows) = length (axis_names ax a).
Proof.
  intros [Hx _] Hr. destruct ax; simpl in *.
  - unfold sum_axis1. rewrite length_map. congruence.
  - unfold sum_axis0, shape1. by rewrite length_map, length_seq.
Qed.

Lemma cached_hit ax key fresh w c :
  table ax (adata w) !! key = Some c →
  cached ax key fresh w = (inr (col_values c), w).
Proof.
  intros H. unfold cached.
  rewrite (bind_inr get_adata _ w (adata w) w) by reflexivity. by rewrite H.
Qed.

Lemma cached_spec ax key fresh w :
  aligned ax (adata w) →
  length (fresh (adata w)) = length (axis_names ax (adata w)) →
  ∃ c w', cached ax key fresh w = (inr (col_values c), w')
    ∧ untouched w w' ∧ stdout w' = stdout w
    ∧ table ax (adata w') !! key = Some c
    ∧ aligned ax (adata w')
    ∧ (∀ k c', table ax (adata w) !! k = Some c' → table ax (adata w') !! k = Some c').
Proof.
  intros Hal Hfresh.
  destruct (table ax (adata w) !! key) as [c|] eqn:Hk.
  - exists c, w. rewrite (cached_hit _ _ _ _ _ Hk).
    split; [done|]. split; [apply untouched_refl|].
    split; [done|]. split; [done|]. split; [done|]. auto.
  - exists (NumCol (fresh (adata w))).
    eexists. unfold cached.
    rewrite (bind_inr get_adata _ w (adata w) w) by reflexivity. rewrite Hk.
    split; [reflexivity|].
    destruct Hal as [Hx Hcols]. unfold modify_adata, mbind, M_bind, mret, M_ret.
    destruct ax; cbn [fst snd table set_table set_obs set_var obs var adata axis_names X obs_names var_names] in *.
    + split; [repeat split|]. split; [done|].
      split; [by rewrite lookup_insert_eq|].
      split.
      * split; [done|]. intros k c'. cbn. rewrite lookup_insert.
        case_decide; [intros [= <-]; done|]. apply Hcols.
      * intros k c' Hc'. rewrite lookup_insert_ne; [done|]. congruence.
    + split; [repeat split|]. split; [done|].
      split; [by rewrite lookup_insert_eq|].
      split.
      * split; [done|]. intros k c'. cbn. rewrite lookup_insert.
        case_decide; [intros [= <-]; done|]. apply Hcols.
      * intros k c' Hc'. rewrite lookup_insert_ne; [done|]. congruence.
Qed.

Lemma threshold_run msg thr test v s w :
  ∃ w', threshold msg thr test v s w = (inr (apply_threshold thr test v s), w')
    ∧ adata w' = adata w ∧ elbow_calls w' = elbow_calls w.
Proof.
  destruct thr as [t|]; simpl.
  - eexists. split; [reflexivity|]. done.
  - exists w. done.
Qed.

Lemma untouched_names ax w w' :
  untouched w w' → axis_names ax (adata w') = axis_names ax (adata w).
Proof. intros (_ & ? & ? & _). by destruct ax. Qed.

Lemma length_ge_cutoff c rows : length (ge_cutoff c rows) = length rows.
Proof. unfold ge_cutoff. by rewrite length_map. Qed.

Ltac step_threshold :=
  match goal with
  | |- context [ mbind ?f (threshold ?msg ?thr ?test ?v ?s) ?w ] =>
      let w' := fresh "w" in
      let E := fresh "E" in
      let Ha := fresh "Ha" in
      destruct (threshold_run msg thr test v s w) as (w' & E & Ha & _);
      rewrite (bind_inr _ _ _ _ _ E)
  end.

Lemma filter_axis_run ax based after nk pk sl
    min_n max_n min_pct max_pct min_n_counts max_n_counts cutoff w :
  aligned ax (adata w) →
  ∃ cc cn cp a' w',
    filter_axis ax based after nk pk sl
      min_n max_n min_pct max_pct min_n_counts max_n_counts cutoff w = (inr (), w')
    ∧ X a' = X (adata w)
    ∧ obs_names a' = obs_names (adata w)
    ∧ var_names a' = var_names (adata w)
    ∧ aligned ax a'
    ∧ table ax a' !! "n_counts" = Some cc
    ∧ table ax a' !! nk = Some cn
    ∧ table ax a' !! pk = Some cp
    ∧ (∀ k c, table ax (adata w) !! k = Some c → table ax a' !! k = Some c)
    ∧ adata w' =
        if all_unset [min_n; min_pct; min_n_counts; max_n; max_pct; max_n_counts]
        then a'
        else inplace_subset ax
               (filter_mask min_n max_n min_pct max_pct min_n_counts max_n_counts
                  (col_values cc) (col_values cn) (col_values cp)
                  (length (axis_names ax a'))) a'.
Proof.
  intros Hal. unfold filter_axis.
  destruct (cached_spec ax "n_counts"
              (λ a, map astype_int (sum_along ax a (X a))) w Hal)
    as (cc & w1 & E1 & U1 & O1 & K1 & A1 & M1).
  { rewrite length_map. by apply length_sum_along. }
  rewrite (bind_inr _ _ _ _ _ E1).
  destruct (cached_spec ax nk
              (λ a, map astype_int (sum_along ax a (ge_cutoff cutoff (X a)))) w1 A1)
    as (cn & w2 & E2 & U2 & O2 & K2 & A2 & M2).
  { rewrite length_map. apply length_sum_along; [done|apply length_ge_cutoff]. }
  rewrite (bind_inr _ _ _ _ _ E2).
  destruct (cached_spec ax pk
              (λ a, map (λ v, num_div v (num_of_nat (other_size ax a))) (col_values cn))
              w2 A2)
    as (cp & w3 & E3 & U3 & O3 & K3 & A3 & M3).
  { rewrite length_map. exact (proj2 A2 _ _ K2). }
  rewrite (bind_inr _ _ _ _ _ E3).
  assert (untouched w w3) as U
    by (eapply untouched_trans; [exact U1|]; eapply untouched_trans; eauto).
  exists cc, cn, cp, (adata w3).
  assert (X (adata w3) = X (adata w) ∧ obs_names (adata w3) = obs_names (adata w)
          ∧ var_names (adata w3) = var_names (adata w)) as (HX & Ho & Hv)
    by (destruct U as (? & ? & ? & _); done).
  destruct (all_unset _).
  { eexists. split; [reflexivity|]. repeat (split; [by auto|]). done. }
  rewrite (bind_inr get_adata _ w3 (adata w3) w3) by reflexivity.
  do 6 step_threshold.
  eexists. split; [reflexivity|]. repeat (split; [by auto|]).
  cbn. unfold filter_mask. congruence.
Qed.

(** ** A second run of a filter *)

Ltac axis_cases ax :=
  destruct ax;
  unfold aligned, inplace_subset, inplace_subset_obs, inplace_subset_var,
         table, axis_names in *;
  cbn [X obs_names var_names obs var] in *.

Lemma aligned_subset ax m a : aligned ax a → aligned ax (inplace_subset ax m a).
Proof.
  intros [Hx Hcols]. axis_cases ax.
  - split; [by apply length_mask_filter|].
    intros k c. rewrite lookup_fmap. destruct (obs a !! k) as [c0|] eqn:Hk; [|done].
    intros [= <-]. rewrite col_values_filter. apply length_mask_filter. eauto.
  - split.
    + apply Forall_map. eapply Forall_impl; [exact Hx|]. cbv beta.
      intros r Hr. by apply length_mask_filter.
    + intros k c. rewrite lookup_fmap. destruct (var a !! k) as [c0|] eqn:Hk; [|done].
      intros [= <-]. rewrite col_values_filter. apply length_mask_filter. eauto.
Qed.

Lemma subset_all_true ax a :
  aligned ax a →
  let a' := inplace_subset ax (replicate (length (axis_names ax a)) true) a in
  X a' = X a ∧ obs_names a' = obs_names a ∧ var_names a' = var_names a.
Proof.
  intros [Hx _]. axis_cases ax; cbv zeta; cbn [X obs_names var_names].
  - split; [|split; [|done]]; apply mask_filter_all_true; lia.
  - split; [|split; [done|]]; [|apply mask_filter_all_true; lia].
    induction Hx as [|r rows Hr _ IH]; [done|]. cbn [map]. rewrite IH. f_equal.
    apply mask_filter_all_true. lia.
Qed.



(** ** The selection functions *)

Lemma get_pca_run w d :
  uns (adata w) !! "pca" = Some d → get_pca w = (inr d, w).
Proof.
  intros H. unfold get_pca.
  rewrite (bind_inr get_adata _ w (adata w) w) by reflexivity. by rewrite H.
Qed.

Lemma get_pca_fail w :
  uns (adata w) !! "pca" = None → get_pca w = (inl (KeyError "pca"), w).
Proof.
  intros H. unfold get_pca.
  rewrite (bind_inr get_adata _ w (adata w) w) by reflexivity. by rewrite H.
Qed.

Lemma update_pca_run f w d :
  uns (adata w) !! "pca" = Some d →
  update_pca f w
  = (inr (), mk_World (set_uns (<["pca" := f d]> (uns (adata w))) (adata w))
                      (elbow_calls w) (stdout w)).
Proof.
  intros H. unfold update_pca. by rewrite (bind_inr _ _ _ _ _ (get_pca_run w d H)).
Qed.

Lemma update_pca_fail f w :
  uns (adata w) !! "pca" = None → update_pca f w = (inl (KeyError "pca"), w).
Proof.
  intros H. unfold update_pca. by rewrite (bind_inl _ _ _ _ _ (get_pca_fail w H)).
Qed.

Lemma update_pca_frame f w :
  untouched_but_uns w (update_pca f w).2 ∧ elbow_calls (update_pca f w).2 = elbow_calls w.
Proof.
  destruct (uns (adata w) !! "pca") as [d|] eqn:H.
  - rewrite (update_pca_run _ _ _ H). by repeat split.
  - rewrite (update_pca_fail _ _ H). by repeat split.
Qed.

Lemma untouched_but_uns_refl w : untouched_but_uns w w.
Proof. by repeat split. Qed.

Lemma untouched_but_uns_trans w1 w2 w3 :
  untouched_but_uns w1 w2 → untouched_but_uns w2 w3 → untouched_but_uns w1 w3.
Proof. unfold untouched_but_uns. intros H1 H2. intuition congruence. Qed.

Lemma write_top_pcs_run ids w :
  let cleared := BoolCol (replicate (shape1 (adata w)) false) in
  let stored c := mk_World (set_var (<["top_pcs" := c]> (var (adata w))) (adata w))
                           (elbow_calls w) (stdout w) in
  write_top_pcs ids w
  = if bool_decide (np_unique ids = []) then (inl IndexError, stored cleared)
    else match mapM (λ j, var_names (adata w) !! j) (np_unique ids) with
         | None => (inl IndexError, stored cleared)
         | Some labels =>
             (inr (), stored (loc_set_true labels (var_names (adata w)) cleared))
         end.
Proof.
  cbv zeta. unfold write_top_pcs.
  rewrite (bind_inr get_adata _ w (adata w) w) by reflexivity.
  unfold mbind at 1, M_bind at 1. unfold set_var_col at 1, modify_adata at 1.
  destruct (bool_decide (np_unique ids = [])); [done|].
  destruct (mapM _ _) as [labels|]; [|done].
  rewrite (bind_inr (lift_option _ (Some labels)) _ _ labels _) by reflexivity.
  rewrite (bind_inr get_adata _ _ _ _ eq_refl).
  cbn [adata set_var var].
  rewrite lookup_insert_eq.
  rewrite (bind_inr (lift_option _ (Some _)) _ _ _ _ eq_refl).
  unfold set_var_col, modify_adata, set_var. cbn [adata X obs_names var_names obs var
    layers obsm varm uns elbow_calls stdout].
  by rewrite insert_insert_eq.
Qed.

Lemma write_top_pcs_frame ids w :
  untouched_but_uns w (write_top_pcs ids w).2
  ∧ elbow_calls (write_top_pcs ids w).2 = elbow_calls w
  ∧ uns (adata (write_top_pcs ids w).2) = uns (adata w).
Proof.
  rewrite write_top_pcs_run.
  destruct (bool_decide _); [by repeat split|].
  destruct (mapM _ _); by repeat split.
Qed.

Section SelectionFacts.
Variable locate_elbow : ElbowCall → exn + option Z.
Variable np_argsort : list num → list nat.

Lemma call_locate_elbow_run c w :
  call_locate_elbow locate_elbow c w
  = (locate_elbow c, mk_World (adata w) (elbow_calls w ++ [c]) (stdout w)).
Proof. reflexivity. Qed.


(** The calls [select_pcs] makes name no curve. *)
Lemma select_pcs_calls n_pcs S curve direction online min_elbow kwargs w :
  ∃ new,
    elbow_calls (select_pcs locate_elbow n_pcs S curve direction online
                   min_elbow kwargs w).2 = (elbow_calls w ++ new)%list
    ∧ Forall (λ c, ec_curve c = None) new.
Proof.
  assert (∃ new : list ElbowCall,
            elbow_calls w = (elbow_calls w ++ new)%list
            ∧ Forall (λ c, ec_curve c = None) new) as Hnone
    by (exists []; by rewrite app_nil_r).
  unfold select_pcs. destruct n_pcs as [n|].
  { by rewrite (proj2 (update_pca_frame _ w)). }
  rewrite (bind_inr get_adata _ w (adata w) w) by reflexivity.
  destruct (obsm (adata w) !! "X_pca") as [P|]; [|done].
  rewrite (bind_inr (lift_option _ (Some P)) _ w P w) by reflexivity.
  destruct (uns (adata w) !! "pca") as [d|] eqn:Hd.
  2:{ by rewrite (bind_inl _ _ _ _ _ (get_pca_fail w Hd)). }
  rewrite (bind_inr _ _ _ _ _ (get_pca_run w d Hd)).
  destruct (variance_ratio d) as [y|]; [|done].
  rewrite (bind_inr (lift_option _ (Some y)) _ w y w) by reflexivity.
  unfold mbind, M_bind. rewrite call_locate_elbow_run.
  eexists (cons _ nil). split.
  - destruct (locate_elbow _) as [e|r]; [reflexivity|].
    rewrite (proj2 (update_pca_frame _ (mk_World _ _ _))). reflexivity.
  - by repeat constructor.
Qed.

Lemma tenth_unrounded (n : nat) :
  num_div (num_of_nat n) (num_of_Z 10) = Fin (Qc_of_Z (Z.of_nat n) / Qc_of_Z 10)%Qc.
Proof. unfold num_div, num_of_nat, num_of_Z. by case_decide. Qed.

Lemma select_pcs_explicit_run n S curve direction online min_elbow kwargs w d :
  uns (adata w) !! "pca" = Some d →
  select_pcs locate_elbow (Some n) S curve direction online min_elbow kwargs w
  = (inr (), mk_World (set_uns (<["pca" := set_n_pcs (Some n) d]> (uns (adata w))) (adata w))
                      (elbow_calls w) (stdout w)).
Proof. intros H. unfold select_pcs. by apply update_pca_run. Qed.

Lemma select_pcs_locator_run S curve direction online min_elbow kwargs w P d y :
  obsm (adata w) !! "X_pca" = Some P →
  uns (adata w) !! "pca" = Some d →
  variance_ratio d = Some y →
  let c := mk_ElbowCall (seq 0 (nd_ncols P)) y S
             (default (num_div (num_of_nat (nd_ncols P)) (num_of_Z 10)) min_elbow)
             None (Some direction) (Some online) kwargs in
  select_pcs locate_elbow None S curve direction online min_elbow kwargs w
  = match locate_elbow c with
    | inl e => (inl e, mk_World (adata w) (elbow_calls w ++ [c]) (stdout w))
    | inr r =>
        (inr (), mk_World (set_uns (<["pca" := set_n_pcs r d]> (uns (adata w))) (adata w))
                          (elbow_calls w ++ [c]) (stdout w))
    end.
Proof.
  intros HP Hd Hy c. unfold select_pcs.
  rewrite (bind_inr get_adata _ w (adata w) w) by reflexivity.
  rewrite HP. rewrite (bind_inr (lift_option _ (Some P)) _ w P w) by reflexivity.
  rewrite (bind_inr _ _ _ _ _ (get_pca_run w d Hd)).
  rewrite Hy. rewrite (bind_inr (lift_option _ (Some y)) _ w y w) by reflexivity.
  unfold mbind, M_bind at 1. rewrite call_locate_elbow_run. fold c.
  destruct (locate_elbow c) as [e|r]; [done|].
  by rewrite (update_pca_run _ (mk_World _ _ _) d Hd).
Qed.

Lemma body_run S me kwargs nf i acc w P :
  varm (adata w) !! "PCs" = Some P → (i < nd_ncols P)%nat →
  let loadings := map num_abs (np_column i (nd_rows P)) in
  let c := mk_ElbowCall (seq 0 nf) (rev (np_sort loadings)) S me None None None kwargs in
  let w1 := mk_World (adata w) (elbow_calls w ++ [c]) (stdout w) in
  select_pcs_features_body locate_elbow np_argsort S me kwargs nf i acc w
  = match locate_elbow c with
    | inl e => (inl e, w1)
    | inr elbow =>
        let ids := py_slice_to elbow (rev (np_argsort loadings)) in
        match uns (adata w) !! "pca" with
        | None => (inl (KeyError "pca"), w1)
        | Some d =>
            match features d with
            | None => (inl (KeyError "features"), w1)
            | Some pcs =>
                (inr (acc ++ ids)%list,
                 mk_World (set_uns (<["pca" := set_features (<[pc_key i := ids]> pcs) d]>
                                      (uns (adata w))) (adata w))
                          (elbow_calls w ++ [c]) (stdout w))
            end
        end
    end.
Proof.
  intros HP Hi loadings c w1. unfold select_pcs_features_body.
  rewrite (bind_inr get_adata _ w (adata w) w) by reflexivity.
  rewrite HP. rewrite (bind_inr (lift_option _ (Some P)) _ w P w) by reflexivity.
  rewrite bool_decide_eq_false_2 by lia.
  unfold mbind, M_bind at 1. rewrite call_locate_elbow_run.
  fold loadings. fold c. fold w1.
  destruct (locate_elbow c) as [e|elbow]; [done|]. cbv zeta.
  destruct (uns (adata w) !! "pca") as [d|] eqn:Hd.
  2:{ by rewrite (bind_inl _ _ _ _ _ (get_pca_fail w1 Hd)). }
  rewrite (bind_inr _ _ _ _ _ (get_pca_run w1 d Hd)).
  destruct (features d) as [pcs|]; [|done].
  rewrite (bind_inr (lift_option _ (Some pcs)) _ w1 pcs w1) by reflexivity.
  unfold mbind, M_bind at 1.
  by rewrite (update_pca_run _ w1 d Hd).
Qed.

Lemma body_stops S me kwargs nf i acc w :
  (∀ P, varm (adata w) !! "PCs" = Some P → (nd_ncols P ≤ i)%nat) →
  ∃ e, select_pcs_features_body locate_elbow np_argsort S me kwargs nf i acc w
       = (inl e, w).
Proof.
  intros H. unfold select_pcs_features_body.
  rewrite (bind_inr get_adata _ w (adata w) w) by reflexivity.
  destruct (varm (adata w) !! "PCs") as [P|]; [|by eexists].
  rewrite (bind_inr (lift_option _ (Some P)) _ w P w) by reflexivity.
  rewrite bool_decide_eq_true_2 by eauto. by eexists.
Qed.

(** What one round of the loop does to the log of calls. *)
Lemma body_calls S me kwargs nf i acc w :
  let out := select_pcs_features_body locate_elbow np_argsort S me kwargs nf i acc w in
  untouched_but_uns w out.2 ∧ var (adata out.2) = var (adata w) ∧
  ∃ new, elbow_calls out.2 = (elbow_calls w ++ new)%list
    ∧ Forall (λ c, ec_min_elbow c = me ∧ ec_curve c = None ∧ ec_direction c = None) new
    ∧ (∀ P, varm (adata w) !! "PCs" = Some P → (i < nd_ncols P)%nat → new ≠ []).
Proof.
  cbv zeta.
  destruct (varm (adata w) !! "PCs") as [P|] eqn:HP.
  - destruct (decide (i < nd_ncols P)%nat) as [Hi|Hi].
    + rewrite (body_run _ _ _ _ _ _ _ _ HP Hi). cbv zeta.
      set (c := mk_ElbowCall _ _ _ _ _ _ _ _).
      assert (∃ r a, match locate_elbow c with
                     | inl e => (inl e, mk_World (adata w) (elbow_calls w ++ [c]) (stdout w))
                     | inr elbow => _
                     end = (r, mk_World a (elbow_calls w ++ [c]) (stdout w))
                     ∧ X a = X (adata w) ∧ obs_names a = obs_names (adata w)
                     ∧ var_names a = var_names (adata w) ∧ layers a = layers (adata w)
                     ∧ obsm a = obsm (adata w) ∧ varm a = varm (adata w)
                     ∧ obs a = obs (adata w) ∧ var a = var (adata w))
        as (r & a & -> & H).
      { destruct (locate_elbow c); [by eexists _, _|].
        destruct (uns (adata w) !! "pca") as [d|]; [|by eexists _, _].
        destruct (features d); by eexists _, _. }
      cbn [fst snd adata elbow_calls stdout].
      split; [unfold untouched_but_uns; cbn [adata stdout]; intuition|].
      split; [intuition|].
      exists [c]. split; [done|]. split; [by repeat constructor|]. done.
    + destruct (body_stops S me kwargs nf i acc w) as (e & ->).
      { intros Q HQ. rewrite HP in HQ. injection HQ as <-. lia. }
      split; [by repeat split|]. split; [done|].
      exists []. rewrite app_nil_r. split; [done|]. split; [constructor|].
      intros Q [= <-]. done.
  - destruct (body_stops S me kwargs nf i acc w) as (e & ->); [intros Q HQ; congruence|].
    split; [by repeat split|]. split; [done|].
    exists []. rewrite app_nil_r. split; [done|]. split; [constructor|]. done.
Qed.

Lemma loop_calls S me kwargs nf js acc w :
  let out := for_loop (select_pcs_features_body locate_elbow np_argsort S me kwargs nf)
                      js acc w in
  untouched_but_uns w out.2 ∧
  ∃ new, elbow_calls out.2 = (elbow_calls w ++ new)%list
    ∧ Forall (λ c, ec_min_elbow c = me ∧ ec_curve c = None ∧ ec_direction c = None) new
    ∧ (∀ P i rest, js = i :: rest → varm (adata w) !! "PCs" = Some P →
                   (i < nd_ncols P)%nat → new ≠ []).
Proof.
  cbv zeta. revert acc w. induction js as [|i rest IH]; intros acc w.
  - split; [apply untouched_but_uns_refl|]. exists [].
    rewrite app_nil_r. split; [done|]. split; [constructor|]. done.
  - cbn [for_loop]. unfold mbind, M_bind.
    destruct (body_calls S me kwargs nf i acc w) as (U1 & _ & new1 & C1 & F1 & N1).
    destruct (select_pcs_features_body _ _ _ _ _ _ _ _ _) as [[e|acc'] w1].
    + split; [done|]. exists new1. split; [done|]. split; [done|].
      intros P i' rest' [= <- <-]. apply N1.
    + fold (@mbind M _) in *. cbn [fst snd] in *.
      destruct (IH acc' w1) as (U2 & new2 & C2 & F2 & _).
      split; [by eapply untouched_but_uns_trans|].
      exists (new1 ++ new2)%list. rewrite C2, C1, app_assoc.
      split; [done|]. split; [by apply Forall_app|].
      intros P i' rest' [= <- <-] HP Hi. specialize (N1 P HP Hi).
      by destruct new1.
Qed.

Lemma select_pcs_features_run S curve direction online min_elbow kwargs w d n P :
  uns (adata w) !! "pca" = Some d →
  n_pcs d = Some n →
  varm (adata w) !! "PCs" = Some P →
  let me := default (num_div (num_of_nat (nd_shape0 P)) (num_of_Z 10)) min_elbow in
  let w0 := mk_World (set_uns (<["pca" := set_features ∅ d]> (uns (adata w))) (adata w))
                     (elbow_calls w) (stdout w) in
  select_pcs_features locate_elbow np_argsort S curve direction online min_elbow kwargs w
  = match n with
    | None =>
        (inl (TypeError "'NoneType' object cannot be interpreted as an integer"), w0)
    | Some k =>
        (for_loop (select_pcs_features_body locate_elbow np_argsort S me kwargs
                     (nd_shape0 P)) (seq 0 (Z.to_nat k)) []
         ≫= write_top_pcs) w0
    end.
Proof.
  intros Hd Hn HP me w0. unfold select_pcs_features.
  rewrite (bind_inr _ _ _ _ _ (get_pca_run w d Hd)).
  rewrite Hn. rewrite (bind_inr (lift_option _ (Some n)) _ w n w) by reflexivity.
  rewrite (bind_inr get_adata _ w (adata w) w) by reflexivity.
  rewrite HP. rewrite (bind_inr (lift_option _ (Some P)) _ w P w) by reflexivity.
  unfold mbind at 1, M_bind at 1. rewrite (update_pca_run _ w d Hd).
  by destruct n.
Qed.

Lemma select_pcs_features_stops S curve direction online min_elbow kwargs w :
  (∀ d n P, uns (adata w) !! "pca" = Some d → n_pcs d = Some n →
            varm (adata w) !! "PCs" = Some P → False) →
  ∃ e, select_pcs_features locate_elbow np_argsort
         S curve direction online min_elbow kwargs w = (inl e, w).
Proof.
  intros H. unfold select_pcs_features.
  destruct (uns (adata w) !! "pca") as [d|] eqn:Hd.
  2:{ rewrite (bind_inl _ _ _ _ _ (get_pca_fail w Hd)). by eexists. }
  rewrite (bind_inr _ _ _ _ _ (get_pca_run w d Hd)).
  destruct (n_pcs d) as [n|] eqn:Hn; [|by eexists].
  rewrite (bind_inr (lift_option _ (Some n)) _ w n w) by reflexivity.
  rewrite (bind_inr get_adata _ w (adata w) w) by reflexivity.
  destruct (varm (adata w) !! "PCs") as [P|] eqn:HP; [|by eexists].
  destruct (H d n P); done.
Qed.

Lemma select_pcs_features_calls S curve direction online min_elbow kwargs w :
  let out := select_pcs_features locate_elbow np_argsort
               S curve direction online min_elbow kwargs w in
  untouched_but_uns w out.2 ∧
  ∃ new, elbow_calls out.2 = (elbow_calls w ++ new)%list
    ∧ Forall (λ c, (∃ P, varm (adata w) !! "PCs" = Some P ∧
                     ec_min_elbow c
                     = default (num_div (num_of_nat (nd_shape0 P)) (num_of_Z 10)) min_elbow)
                   ∧ ec_curve c = None ∧ ec_direction c = None) new
    ∧ (∀ P d n, varm (adata w) !! "PCs" = Some P → uns (adata w) !! "pca" = Some d →
                n_pcs d = Some (Some n) → (0 < n)%Z → (0 < nd_ncols P)%nat → new ≠ []).
Proof.
  cbv zeta.
  destruct (uns (adata w) !! "pca") as [d|] eqn:Hd.
  2:{ destruct (select_pcs_features_stops S curve direction online min_elbow kwargs w)
        as (e & ->); [intros; congruence|].
      split; [apply untouched_but_uns_refl|]. exists [].
      rewrite app_nil_r. split; [done|]. split; [constructor|]. intros; congruence. }
  destruct (n_pcs d) as [n|] eqn:Hn.
  2:{ destruct (select_pcs_features_stops S curve direction online min_elbow kwargs w)
        as (e & ->); [intros; congruence|].
      split; [apply untouched_but_uns_refl|]. exists [].
      rewrite app_nil_r. split; [done|]. split; [constructor|]. intros; congruence. }
  destruct (varm (adata w) !! "PCs") as [P|] eqn:HP.
  2:{ destruct (select_pcs_features_stops S curve direction online min_elbow kwargs w)
        as (e & ->); [intros; congruence|].
      split; [apply untouched_but_uns_refl|]. exists [].
      rewrite app_nil_r. split; [done|]. split; [constructor|]. intros; congruence. }
  rewrite (select_pcs_features_run _ _ _ _ _ _ _ _ _ _ Hd Hn HP). cbv zeta.
  destruct n as [k|].
  2:{ split; [by repeat split|]. exists [].
      rewrite app_nil_r. split; [done|]. split; [constructor|]. intros; congruence. }
  set (w0 := mk_World _ _ _).
  set (me := default _ _).
  destruct (loop_calls S me kwargs (nd_shape0 P) (seq 0 (Z.to_nat k)) [] w0)
    as (U & new & C & F & N).
  unfold mbind, M_bind.
  destruct (for_loop _ _ _ _) as [[e|ids] w1]; cbn [fst snd] in *.
  - split; [eapply untouched_but_uns_trans; [|exact U]; by repeat split|].
    exists new. split; [done|]. split.
    + eapply Forall_impl; [exact F|]. intros c (? & ? & ?). eauto.
    + intros P' d' n' [= <-] [= <-] Hn' Hk Hcols.
      rewrite Hn in Hn'. injection Hn' as <-.
      destruct (Z.to_nat k) as [|k'] eqn:Hk'; [lia|].
      eapply (N P 0%nat); [reflexivity|exact HP|done].
  - destruct (write_top_pcs_frame ids w1) as (U' & C' & _).
    split.
    { eapply untouched_but_uns_trans; [|exact U'].
      eapply untouched_but_uns_trans; [|exact U]. by repeat split. }
    exists new. rewrite C'. split; [done|]. split.
    + eapply Forall_impl; [exact F|]. intros c (? & ? & ?). eauto.
    + intros P' d' n' [= <-] [= <-] Hn' Hk Hcols.
      rewrite Hn in Hn'. injection Hn' as <-.
      destruct (Z.to_nat k) as [|k'] eqn:Hk'; [lia|].
      eapply (N P 0%nat); [reflexivity|exact HP|done].
Qed.
End SelectionFacts.

(** ** The feature flags *)

Lemma elem_of_np_unique j ids : j ∈ np_unique ids ↔ j ∈ ids.
Proof.
  unfold np_unique. rewrite merge_sort_Permutation. apply elem_of_remove_dups.
Qed.

Lemma np_unique_nil ids : np_unique ids = [] → ids = [].
Proof.
  intros H. destruct ids as [|j ids]; [done|].
  assert (j ∈ np_unique (j :: ids)) as Hj by (apply elem_of_np_unique; left).
  rewrite H in Hj. by apply elem_of_nil in Hj.
Qed.

(** With pairwise distinct feature names and indices within the feature
    axis, the flags written after the loop are exactly the indices the loop
    gathered. *)
Lemma write_top_pcs_distinct_names ids w :
  NoDup (var_names (adata w)) →
  Forall (λ j, (j < shape1 (adata w))%nat) ids →
  ∃ flags, var (adata (write_top_pcs ids w).2) !! "top_pcs" = Some (BoolCol flags)
    ∧ length flags = shape1 (adata w)
    ∧ ∀ j, flags !! j = Some true ↔ j ∈ ids.
Proof.
  intros Hnd Hin. rewrite write_top_pcs_run. cbv zeta.
  case_bool_decide as Hnil.
  { apply np_unique_nil in Hnil as ->.
    eexists. cbn [snd adata set_var var]. rewrite lookup_insert_eq.
    split; [done|]. split; [apply length_replicate|].
    intros j. rewrite lookup_replicate. split; [by intros [? _]|].
    intros H. by apply elem_of_nil in H. }
  destruct (mapM _ _) as [labels|] eqn:Hl.
  2:{ exfalso. apply eq_None_not_Some in Hl. apply Hl, mapM_is_Some.
      apply Forall_forall. intros j Hj. apply (proj1 (elem_of_np_unique _ _)) in Hj.
      rewrite Forall_forall in Hin. unfold compose.
      apply lookup_lt_is_Some. exact (Hin j Hj). }
  apply mapM_Some in Hl.
  eexists. cbn [snd adata set_var var loc_set_true]. rewrite lookup_insert_eq.
  split; [done|]. split.
  { rewrite length_zip_with, length_replicate. unfold shape1. lia. }
  intros j. rewrite lookup_zip_with.
  destruct (var_names (adata w) !! j) as [nm|] eqn:Hj; cbn.
  2:{ split; [done|]. intros Hjin. rewrite Forall_forall in Hin.
      apply Hin in Hjin. apply lookup_ge_None in Hj. unfold shape1 in Hjin. lia. }
  rewrite lookup_replicate_2 by (by eapply lookup_lt_Some). cbn.
  case_bool_decide as Hnm.
  - split; [intros _|done].
    apply list_elem_of_lookup in Hnm as [k Hk].
    destruct (Forall2_lookup_r _ _ _ _ _ Hl Hk) as (i & Hi & Hname).
    assert (i = j) as -> by (by eapply NoDup_lookup).
    apply (proj1 (elem_of_np_unique _ _)). by eapply list_elem_of_lookup_2.
  - split; [done|]. intros Hjin. exfalso. apply Hnm.
    apply (proj2 (elem_of_np_unique _ _)), list_elem_of_lookup in Hjin as [k Hk].
    destruct (Forall2_lookup_l _ _ _ _ _ Hl Hk) as (nm' & Hk' & Hname).
    rewrite Hj in Hname. injection Hname as <-. by eapply list_elem_of_lookup_2.
Qed.

(** ** The flags and the recorded lists *)

Lemma pc_key_inj i j : pc_key i = pc_key j → i = j.
Proof. unfold pc_key. cbn. intros [= H]. by apply (inj pretty). Qed.

Lemma elem_of_slice_to {A} (stop : option Z) (l : list A) x :
  x ∈ py_slice_to stop l → x ∈ l.
Proof.
  unfold py_slice_to. destruct stop as [k|]; [|done].
  case_bool_decide; apply subseteq_take.
Qed.

Section SelectionFlags.
Variable locate_elbow : ElbowCall → exn + option Z.
Variable np_argsort : list num → list nat.
(** [np.argsort] returns positions of its argument. *)
Hypothesis argsort_positions :
  ∀ l, Forall (λ j, (j < length l)%nat) (np_argsort l).

Lemma body_gathers S me kwargs nf i acc w ids w1 P :
  varm (adata w) !! "PCs" = Some P →
  Forall (λ j, (j < nd_shape0 P)%nat) acc →
  gathered i acc w →
  select_pcs_features_body locate_elbow np_argsort S me kwargs nf i acc w
  = (inr ids, w1) →
  Forall (λ j, (j < nd_shape0 P)%nat) ids ∧ gathered (Datatypes.S i) ids w1.
Proof.
  intros HP Hacc (d & pcs & Hd & Hf & Hkeys & Hmem) Hrun.
  destruct (decide (i < nd_ncols P)%nat) as [Hi|Hi].
  2:{ destruct (body_stops locate_elbow np_argsort S me kwargs nf i acc w) as (e & He).
      { intros Q HQ. rewrite HP in HQ. injection HQ as <-. lia. }
      rewrite He in Hrun. discriminate Hrun. }
  rewrite (body_run _ _ _ _ _ _ _ _ _ _ HP Hi) in Hrun. cbv zeta in Hrun.
  destruct (locate_elbow _) as [e|elbow]; [discriminate Hrun|].
  rewrite Hd, Hf in Hrun. injection Hrun as <- <-.
  set (ranked := rev (np_argsort (map num_abs (np_column i (nd_rows P))))).
  assert (Forall (λ j, (j < nd_shape0 P)%nat) (py_slice_to elbow ranked)) as Hin.
  { apply Forall_forall. intros j Hj. apply elem_of_slice_to in Hj.
    subst ranked. apply list_elem_of_In, in_rev, list_elem_of_In in Hj.
    pose proof (argsort_positions (map num_abs (np_column i (nd_rows P)))) as Hp.
    rewrite Forall_forall in Hp. apply Hp in Hj.
    unfold np_column in Hj. rewrite !length_map in Hj. exact Hj. }
  split; [by apply Forall_app|].
  exists (set_features (<[pc_key i := py_slice_to elbow ranked]> pcs) d),
         (<[pc_key i := py_slice_to elbow ranked]> pcs).
  cbn [adata set_uns uns]. split; [apply lookup_insert_eq|]. split; [done|].
  assert (pcs !! pc_key i = None) as Hfresh.
  { destruct (pcs !! pc_key i) eqn:E; [|done].
    destruct (Hkeys (pc_key i)) as (i' & Hlt & Heq); [by eexists|].
    apply pc_key_inj in Heq. lia. }
  split.
  - intros key [l Hl]. destruct (decide (key = pc_key i)) as [->|Hne].
    + exists i. split; [lia|done].
    + rewrite lookup_insert_ne in Hl by done.
      destruct (Hkeys key) as (i' & Hlt & Heq); [by eexists|].
      exists i'. split; [lia|done].
  - intros j. rewrite elem_of_app, Hmem. split.
    + intros [(i' & l & Hl & Hj)|Hj].
      * exists i', l. split; [|done].
        rewrite lookup_insert_ne; [done|]. intros Heq. congruence.
      * exists i, (py_slice_to elbow ranked). split; [apply lookup_insert_eq|done].
    + intros (i' & l & Hl & Hj). destruct (decide (i' = i)) as [->|Hne].
      * rewrite lookup_insert_eq in Hl. injection Hl as <-. by right.
      * rewrite lookup_insert_ne in Hl by (intros Heq; by apply pc_key_inj in Heq).
        left. by exists i', l.
Qed.

Lemma loop_gathers S me kwargs nf n P :
  ∀ s acc w ids w1,
    varm (adata w) !! "PCs" = Some P →
    Forall (λ j, (j < nd_shape0 P)%nat) acc →
    gathered s acc w →
    for_loop (select_pcs_features_body locate_elbow np_argsort S me kwargs nf)
             (seq s n) acc w = (inr ids, w1) →
    Forall (λ j, (j < nd_shape0 P)%nat) ids ∧ gathered (s + n) ids w1.
Proof.
  induction n as [|n IH]; intros s acc w ids w1 HP Hacc Hg Hrun.
  - cbn in Hrun. injection Hrun as <- <-. by rewrite Nat.add_0_r.
  - cbn [seq for_loop] in Hrun. unfold mbind, M_bind in Hrun.
    destruct (body_calls locate_elbow np_argsort S me kwargs nf s acc w)
      as (U & _).
    destruct (select_pcs_features_body _ _ _ _ _ _ _ _ _) as [[e|acc'] w'] eqn:Hb;
      [discriminate Hrun|].
    destruct (body_gathers _ _ _ _ _ _ _ _ _ _ HP Hacc Hg Hb) as (Hacc' & Hg').
    assert (varm (adata w') !! "PCs" = Some P) as HP'.
    { destruct U as (_ & _ & _ & _ & _ & Hvarm & _). cbn [snd] in Hvarm.
      by rewrite Hvarm. }
    replace (s + Datatypes.S n)%nat with (Datatypes.S s + n)%nat by lia.
    exact (IH (Datatypes.S s) acc' w' ids w1 HP' Hacc' Hg' Hrun).
Qed.

(** When the feature names are pairwise distinct and [PCs] has one row per
    feature, a run of [select_pcs_features] that returns normally has
    flagged exactly the features that some recorded list contains. *)
Lemma top_pcs_is_the_union_for_distinct_names
    S curve direction online min_elbow kwargs w w' :
  NoDup (var_names (adata w)) →
  (∀ P, varm (adata w) !! "PCs" = Some P → nd_shape0 P = shape1 (adata w)) →
  select_pcs_features locate_elbow np_argsort S curve direction online
    min_elbow kwargs w = (inr (), w') →
  ∃ flags, var (adata w') !! "top_pcs" = Some (BoolCol flags)
    ∧ length flags = shape1 (adata w)
    ∧ ∀ j, flags !! j = Some true
           ↔ ∃ i ids, recorded (pc_key i) w' = Some ids ∧ j ∈ ids.
Proof.
  intros Hnd Hshape Hrun.
  destruct (uns (adata w) !! "pca") as [d|] eqn:Hd.
  2:{ destruct (select_pcs_features_stops locate_elbow np_argsort
                  S curve direction online min_elbow kwargs w) as (e & He);
        [intros; congruence|]. rewrite He in Hrun. discriminate Hrun. }
  destruct (n_pcs d) as [n|] eqn:Hn.
  2:{ destruct (select_pcs_features_stops locate_elbow np_argsort
                  S curve direction online min_elbow kwargs w) as (e & He);
        [intros; congruence|]. rewrite He in Hrun. discriminate Hrun. }
  destruct (varm (adata w) !! "PCs") as [P|] eqn:HP.
  2:{ destruct (select_pcs_features_stops locate_elbow np_argsort
                  S curve direction online min_elbow kwargs w) as (e & He);
        [intros; congruence|]. rewrite He in Hrun. discriminate Hrun. }
  rewrite (select_pcs_features_run _ _ _ _ _ _ _ _ _ _ _ _ Hd Hn HP) in Hrun.
  cbv zeta in Hrun. destruct n as [k|]; [|discriminate Hrun].
  set (w0 := mk_World _ _ _) in Hrun.
  unfold mbind, M_bind in Hrun.
  destruct (for_loop _ _ _ _) as [[e|ids] w1] eqn:Hloop; [discriminate Hrun|].
  assert (gathered 0 [] w0) as Hg0.
  { exists (set_features ∅ d), ∅. subst w0. cbn [adata set_uns uns].
    split; [apply lookup_insert_eq|]. split; [done|]. split.
    - intros key [l Hl]. by rewrite lookup_empty in Hl.
    - intros j. split; [intros Hj; by apply elem_of_nil in Hj|].
      intros (i & l & Hl & _). by rewrite lookup_empty in Hl. }
  destruct (loop_gathers _ _ _ _ _ P 0%nat [] w0 ids w1 HP (Forall_nil_2 _) Hg0 Hloop)
    as (Hin & (d1 & pcs1 & Hd1 & Hf1 & _ & Hmem)).
  destruct (loop_calls locate_elbow np_argsort S
              (default (num_div (num_of_nat (nd_shape0 P)) (num_of_Z 10)) min_elbow)
              kwargs (nd_shape0 P) (seq 0 (Z.to_nat k)) [] w0) as (U & _).
  rewrite Hloop in U. cbn [snd] in U.
  destruct U as (_ & _ & Hnames & _).
  assert (var_names (adata w1) = var_names (adata w)) as Hnames' by (by rewrite Hnames).
  destruct (write_top_pcs_distinct_names ids w1) as (flags & Hflags & Hlen & Hiff).
  { by rewrite Hnames'. }
  { unfold shape1. rewrite Hnames'. fold (shape1 (adata w)).
    by rewrite <- (Hshape P eq_refl). }
  destruct (write_top_pcs_frame ids w1) as (_ & _ & Huns).
  rewrite Hrun in Hflags, Huns. cbn [snd] in Hflags, Huns.
  exists flags. split; [exact Hflags|]. split.
  { rewrite Hlen. unfold shape1. by rewrite Hnames'. }
  intros j. rewrite Hiff, Hmem. unfold recorded. rewrite Huns, Hd1, Hf1. done.
Qed.
End SelectionFlags.

(** * The claims *)

(** C1 fails on the code when two features carry one name.  Six features,
    the first two both named g0, two retained components, three features
    kept per component: the recorded lists are [0;2;3] and [3;4;5], with
    the one feature 3 in common, yet all six features are flagged, feature 1
    among them, which neither component selected.  Six entries of the
    column are true, not five. *)
Theorem top_pcs_flags_a_feature_no_component_selected :
  let out := top3_run six_names_one_twice in
  out.1 = inr ()
  ∧ recorded (pc_key 0) out.2 = Some [0; 2; 3]%nat
  ∧ recorded (pc_key 1) out.2 = Some [3; 4; 5]%nat
  ∧ var (adata out.2) !! "top_pcs"
    = Some (BoolCol [true; true; true; true; true; true])
  ∧ count_true (var (adata out.2) !! "top_pcs") = 6%nat.
Proof. cbv zeta. repeat split; vm_compute; reflexivity. Qed.

(** The same run when the six names are distinct: the flags are the union
    of the two lists, five entries. *)
Example top_pcs_union_of_two_top3_lists :
  let out := top3_run six_names in
  out.1 = inr ()
  ∧ recorded (pc_key 0) out.2 = Some [0; 2; 3]%nat
  ∧ recorded (pc_key 1) out.2 = Some [3; 4; 5]%nat
  ∧ var (adata out.2) !! "top_pcs"
    = Some (BoolCol [true; false; true; true; true; true])
  ∧ count_true (var (adata out.2) !! "top_pcs") = 5%nat.
Proof. cbv zeta. repeat split; vm_compute; reflexivity. Qed.



(** C3: when the caller leaves [min_elbow] unset, the locator is called
    with one tenth of the length of the curve, a true quotient that is
    neither floored nor rounded: of the number of components (the second
    dimension of [X_pca]) in [select_pcs], of the number of features (the
    first dimension of [PCs]) in every call of [select_pcs_features]. *)
Theorem default_min_elbow_is_a_tenth
    (locate_elbow : ElbowCall → exn + option Z) (np_argsort : list num → list nat) :
  (∀ S curve direction online kwargs w P d y,
     obsm (adata w) !! "X_pca" = Some P →
     uns (adata w) !! "pca" = Some d →
     variance_ratio d = Some y →
     elbow_calls (select_pcs locate_elbow None S curve direction online None kwargs w).2
     = (elbow_calls w ++
        [mk_ElbowCall (seq 0 (nd_ncols P)) y S
           (Fin (Qc_of_Z (Z.of_nat (nd_ncols P)) / Qc_of_Z 10)%Qc)
           None (Some direction) (Some online) kwargs])%list)
  ∧ (∀ S curve direction online kwargs w P,
       varm (adata w) !! "PCs" = Some P →
       ∃ new,
         elbow_calls (select_pcs_features locate_elbow np_argsort
                        S curve direction online None kwargs w).2
         = (elbow_calls w ++ new)%list
         ∧ Forall (λ c, ec_min_elbow c
                        = Fin (Qc_of_Z (Z.of_nat (nd_shape0 P)) / Qc_of_Z 10)%Qc) new
         ∧ (∀ d n, uns (adata w) !! "pca" = Some d → n_pcs d = Some (Some n) →
                   (0 < n)%Z → (0 < nd_ncols P)%nat → new ≠ [])).
Proof.
  split.
  - intros S curve direction online kwargs w P d y HP Hd Hy.
    rewrite (select_pcs_locator_run _ _ _ _ _ _ _ _ _ _ _ HP Hd Hy). cbv zeta.
    cbn [default]. rewrite tenth_unrounded.
    by destruct (locate_elbow _).
  - intros S curve direction online kwargs w P HP.
    destruct (select_pcs_features_calls locate_elbow np_argsort
                S curve direction online None kwargs w) as (_ & new & C & F & N).
    exists new. split; [done|]. split.
    + eapply Forall_impl; [exact F|]. intros c ((Q & HQ & Hme) & _).
      rewrite HP in HQ. injection HQ as <-. rewrite Hme. cbn [default].
      apply tenth_unrounded.
    + intros d n Hd Hn Hpos Hcols. by eapply N.
Qed.

Lemma default_min_elbow_is_a_tenth_witness :
  elbow_calls
    (select_pcs (locator_const (inr (Some 1%Z))) None (num_of_Z 1) "convex"
       "decreasing" false None ∅ (start (after_pca six_names (pca_store None None)))).2
  = [mk_ElbowCall [0; 1]%nat (ints [6; 4]%Z) (num_of_Z 1)
       (Fin (Qc_of_Z 2 / Qc_of_Z 10)%Qc) None (Some "decreasing") (Some false) ∅]
  ∧ ∃ new,
      elbow_calls (top3_run six_names).2 = new
      ∧ Forall (λ c, ec_min_elbow c = Fin (Qc_of_Z 6 / Qc_of_Z 10)%Qc) new
      ∧ new ≠ [].
Proof.
  pose proof (default_min_elbow_is_a_tenth (locator_const (inr (Some 1%Z)))
                argsort_by_position) as [Hcount _].
  pose proof (default_min_elbow_is_a_tenth (locator_const (inr (Some 3%Z)))
                argsort_by_position) as [_ Hfeatures].
  split.
  - exact (Hcount (num_of_Z 1) "convex" "decreasing" false ∅
             (start (after_pca six_names (pca_store None None)))
             (mk_ndarray [] 2) (pca_store None None) (ints [6; 4]%Z)
             eq_refl eq_refl eq_refl).
  - destruct (Hfeatures (num_of_Z 1) "convex" "decreasing" false ∅
                (start (after_pca six_names (pca_store (Some (Some 2%Z)) None)))
                two_components eq_refl) as (new & C & F & N).
    exists new. split; [exact C|]. split; [exact F|].
    exact (N (pca_store (Some (Some 2%Z)) None) 2%Z eq_refl eq_refl
             ltac:(lia) ltac:(cbn; lia)).
Defined.

(** One tenth of two components is a fifth, where flooring would give 0. *)
Example a_tenth_of_two_components :
  map ec_min_elbow
    (elbow_calls
       (select_pcs (locator_const (inr (Some 1%Z))) None (num_of_Z 1) "convex"
          "decreasing" false None ∅ (start (after_pca six_names (pca_store None None)))).2)
  = [Fin (Q2Qc (1 # 5))].
Proof. apply (bool_decide_eq_true_1 _). vm_compute. reflexivity. Qed.





(** On the 10×5 matrix, a minimum of 5 counts removes three samples the
    first time and none the second. *)
Example min_n_counts_on_10x5 :
  let run := filter_samples None None None None (Some (num_of_Z 5)) None (num_of_Z 1) in
  let w := start counts_10x5 in
  shape0 (adata w) = 10%nat
  ∧ obs_names (adata (run w).2) = ["s0"; "s2"; "s4"; "s6"; "s7"; "s8"; "s9"]
  ∧ length (X (adata (run w).2)) = 7%nat
  ∧ length (X (adata (run (run w).2).2)) = 7%nat.
Proof. cbv zeta. repeat split; vm_compute; reflexivity. Qed.

(** C6: on the 3×3 matrix [[0,2,0],[1,0,3],[4,0,0]] with cutoff 1, [cal_qc]
    records [2,1,1] expressing samples per feature and [1,2,1] expressed
    features per sample. *)
Theorem cal_qc_counts_3x3 :
  let out := cal_qc (num_of_Z 1) (start counts_3x3) in
  out.1 = inr ()
  ∧ var (adata out.2) !! "n_samples" = Some (NumCol (ints [2; 1; 1]%Z))
  ∧ obs (adata out.2) !! "n_features" = Some (NumCol (ints [1; 2; 1]%Z)).
Proof.
  cbv zeta. split; [reflexivity|].
  split; apply (bool_decide_eq_true_1 _); vm_compute; reflexivity.
Qed.

(** C7: a method other than 'lib_size' and 'tf_idf' is rejected with a
    [ValueError] before anything is written: the state after the call is
    the state before it. *)
Theorem normalize_rejects_unknown_method
    (cal_tf_idf : list (list num) → list (list num))
    (method : string) (scale_factor : num) (save_raw : bool) (w : World) :
  method ∉ ["lib_size"; "tf_idf"] →
  normalize cal_tf_idf method scale_factor save_raw w
  = (inl (ValueError ("unrecognized method '" +:+ method +:+ "'")), w).
Proof.
  intros Hm. unfold normalize.
  rewrite bool_decide_eq_false_2 by exact Hm. reflexivity.
Qed.

Lemma normalize_rejects_unknown_method_witness :
  normalize (λ rows, rows) "scran" (num_of_Z 10000) true (start counts_3x3)
  = (inl (ValueError "unrecognized method 'scran'"), start counts_3x3).
Proof.
  apply (normalize_rejects_unknown_method (λ rows, rows) "scran"
           (num_of_Z 10000) true (start counts_3x3)).
  intros H. apply elem_of_cons in H as [H|H]; [discriminate H|].
  apply elem_of_cons in H as [H|H]; [discriminate H|].
  by apply elem_of_nil in H.
Defined.


Ltac run_qc :=
  cbv beta iota zeta delta
    [cal_qc cal_qc_rna cal_qc_atac set_var_col set_obs_col modify_adata get_adata
     mbind M_bind mret M_ret adata elbow_calls stdout set_var set_obs
     var obs X obs_names var_names layers obsm varm uns shape0 shape1
     fst snd filter_match lift_result re_match raise].

(** C9: [cal_qc_rna] matches the bytes pattern [b"^MT-"] against feature
    names that are text.  The six columns of counts are written first; then,
    with at least one feature, the first match raises a [TypeError] and
    'pct_mt' is left as it was, and only without any feature does the call
    return normally, having written 'pct_mt'. *)
Theorem cal_qc_rna_bytes_pattern (expr_cutoff : num) (w : World) :
  let a := adata w in
  let out := cal_qc_rna expr_cutoff w in
  let expressed := ge_cutoff expr_cutoff (X a) in
  (var (adata out.2) !! "n_counts" = Some (NumCol (sum_axis0 (shape1 a) (X a)))
   ∧ var (adata out.2) !! "n_cells" = Some (NumCol (sum_axis0 (shape1 a) expressed))
   ∧ var (adata out.2) !! "pct_cells"
     = Some (NumCol (map (λ v, num_div v (num_of_nat (shape0 a)))
                         (sum_axis0 (shape1 a) expressed)))
   ∧ obs (adata out.2) !! "n_counts" = Some (NumCol (sum_axis1 (X a)))
   ∧ obs (adata out.2) !! "n_genes" = Some (NumCol (sum_axis1 expressed))
   ∧ obs (adata out.2) !! "pct_genes"
     = Some (NumCol (map (λ v, num_div v (num_of_nat (shape1 a))) (sum_axis1 expressed))))
  ∧ match var_names a with
    | [] =>
        out.1 = inr ()
        ∧ obs (adata out.2) !! "pct_mt" = Some (NumCol (replicate (shape0 a) (num_of_Z 0)))
    | _ :: _ =>
        out.1 = inl (TypeError "cannot use a bytes pattern on a string-like object")
        ∧ obs (adata out.2) !! "pct_mt" = obs a !! "pct_mt"
    end.
Proof.
  cbv zeta. destruct w as [a calls out]. run_qc.
  destruct a as [Xa on vn ob va la om vm un]. run_qc.
  destruct vn as [|s rest]; run_qc.
  - cbn [length bool_decide]. rewrite bool_decide_eq_false_2 by (cbn; lia).
    cbn [fst snd adata obs var set_obs].
    repeat split; by simplify_map_eq.
  - repeat split; by simplify_map_eq.
Qed.

(** C10: [curve] in [select_pcs], and [curve] and [direction] in
    [select_pcs_features], do not reach the locator: two runs that differ
    in them only end alike, result, state and logged calls included, and no
    call either function logs carries them. *)
Theorem curve_and_direction_unused
    (locate_elbow : ElbowCall → exn + option Z) (np_argsort : list num → list nat)
    (n_pcs : option Z) (S : num) (curve curve' direction direction' : string)
    (online : bool) (min_elbow : option num) (kwargs : gmap string num) (w : World) :
  select_pcs locate_elbow n_pcs S curve direction online min_elbow kwargs w
  = select_pcs locate_elbow n_pcs S curve' direction online min_elbow kwargs w
  ∧ select_pcs_features locate_elbow np_argsort S curve direction online min_elbow kwargs w
    = select_pcs_features locate_elbow np_argsort S curve' direction' online min_elbow kwargs w
  ∧ (∃ new,
       elbow_calls (select_pcs locate_elbow n_pcs S curve direction online
                      min_elbow kwargs w).2 = (elbow_calls w ++ new)%list
       ∧ Forall (λ c, ec_curve c = None) new)
  ∧ (∃ new,
       elbow_calls (select_pcs_features locate_elbow np_argsort S curve direction
                      online min_elbow kwargs w).2 = (elbow_calls w ++ new)%list
       ∧ Forall (λ c, ec_curve c = None ∧ ec_direction c = None) new).
Proof.
  split; [reflexivity|]. split; [reflexivity|]. split.
  - apply select_pcs_calls.
  - destruct (select_pcs_features_calls locate_elbow np_argsort
                S curve direction online min_elbow kwargs w) as (_ & new & C & F & _).
    exists new. split; [exact C|].
    eapply Forall_impl; [exact F|]. by intros c (_ & ? & ?).
Qed.

(** * Further properties *)

(** ** normalize *)

Lemma normalize_valid_run (cal_tf_idf : list (list num) → list (list num))
    method scale_factor save_raw w :
  method ∈ ["lib_size"; "tf_idf"] →
  normalize cal_tf_idf method scale_factor save_raw w
  = (inr (),
     mk_World
       (set_X (if bool_decide (method = "lib_size")
               then lib_size scale_factor (X (adata w))
               else cal_tf_idf (X (adata w)))
          (if save_raw
           then set_layers (<["raw" := X (adata w)]> (layers (adata w))) (adata w)
           else adata w))
       (elbow_calls w) (stdout w)).
Proof.
  intros Hm. unfold normalize. rewrite bool_decide_eq_true_2 by exact Hm.
  cbn [negb].
  apply elem_of_cons in Hm as [->|Hm];
    [|apply elem_of_cons in Hm as [->|Hm]; [|by apply elem_of_nil in Hm]].
  - rewrite (bool_decide_eq_true_2 ("lib_size" = "lib_size")) by done.
    rewrite (bool_decide_eq_false_2 ("lib_size" = "tf_idf")) by done.
    destruct w as [a calls out], save_raw; reflexivity.
  - rewrite (bool_decide_eq_false_2 ("tf_idf" = "lib_size")) by done.
    rewrite (bool_decide_eq_true_2 ("tf_idf" = "tf_idf")) by done.
    destruct w as [a calls out], save_raw; reflexivity.
Qed.







Lemma zero_over_zero : num_div (Fin 0%Qc) (Fin 0%Qc) = NaN.
Proof. unfold num_div. case_decide; [reflexivity|done]. Qed.







(** X4: [normalize] keeps no copy of the first raw matrix: called twice
    with [save_raw] set, the layer 'raw' holds the original matrix after the
    first call and the once-normalised matrix after the second. *)
Theorem normalize_again_overwrites_raw
    (cal_tf_idf : list (list num) → list (list num))
    (method1 method2 : string) (scale1 scale2 : num) (w : World) :
  method1 ∈ ["lib_size"; "tf_idf"] →
  method2 ∈ ["lib_size"; "tf_idf"] →
  let w1 := (normalize cal_tf_idf method1 scale1 true w).2 in
  let w2 := (normalize cal_tf_idf method2 scale2 true w1).2 in
  layers (adata w1) !! "raw" = Some (X (adata w))
  ∧ layers (adata w2) !! "raw" = Some (X (adata w1)).
Proof.
  intros H1 H2 w1 w2. subst w2 w1.
  rewrite (normalize_valid_run _ method2) by exact H2.
  rewrite (normalize_valid_run _ method1) by exact H1.
  cbn [snd adata set_X set_layers layers X]. by rewrite !lookup_insert_eq.
Qed.

Lemma normalize_again_overwrites_raw_witness :
  let w1 := (normalize (λ rows, rows) "lib_size" (num_of_Z 10000) true
               (start counts_3x3)).2 in
  let w2 := (normalize (λ rows, rows) "tf_idf" (num_of_Z 10000) true w1).2 in
  layers (adata w1) !! "raw" = Some (X counts_3x3)
  ∧ layers (adata w2) !! "raw" = Some (X (adata w1)).
Proof.
  apply (normalize_again_overwrites_raw (λ rows, rows) "lib_size" "tf_idf"
           (num_of_Z 10000) (num_of_Z 10000) (start counts_3x3)).
  - apply elem_of_cons. left. reflexivity.
  - apply elem_of_cons. right. apply elem_of_cons. left. reflexivity.
Defined.

(** ** What a filter keeps *)





Lemma cached_miss ax key fresh w :
  table ax (adata w) !! key = None →
  cached ax key fresh w
  = (inr (fresh (adata w)),
     mk_World (set_table ax (<[key := NumCol (fresh (adata w))]> (table ax (adata w)))
                 (adata w))
              (elbow_calls w) (stdout w)).
Proof.
  intros H. unfold cached.
  rewrite (bind_inr get_adata _ w (adata w) w) by reflexivity. by rewrite H.
Qed.


Lemma all_unset_inv t1 t2 t3 t4 t5 t6 :
  all_unset [t1; t2; t3; t4; t5; t6] = true →
  t1 = None ∧ t2 = None ∧ t3 = None ∧ t4 = None ∧ t5 = None ∧ t6 = None.
Proof. destruct t1, t2, t3, t4, t5, t6; cbn; intros H; try discriminate H; done. Qed.


Lemma filter_axis_cached_ignores_cutoff ax based after nk pk sl
    min_n max_n min_pct max_pct min_n_counts max_n_counts c c' w :
  is_Some (table ax (adata w) !! "n_counts") →
  is_Some (table ax (adata w) !! nk) →
  is_Some (table ax (adata w) !! pk) →
  filter_axis ax based after nk pk sl
    min_n max_n min_pct max_pct min_n_counts max_n_counts c w
  = filter_axis ax based after nk pk sl
      min_n max_n min_pct max_pct min_n_counts max_n_counts c' w.
Proof.
  intros [cc Kc] [cn Kn] [cp Kp]. unfold filter_axis.
  rewrite (bind_inr _ _ _ _ _ (cached_hit ax "n_counts" _ w cc Kc)).
  rewrite (bind_inr _ _ _ _ _ (cached_hit ax "n_counts" _ w cc Kc)).
  rewrite (bind_inr _ _ _ _ _ (cached_hit ax nk _ w cn Kn)).
  rewrite (bind_inr _ _ _ _ _ (cached_hit ax nk _ w cn Kn)).
  reflexivity.
Qed.

(** X5: a filter that finds its three metadata columns in the table does
    not look at the matrix again: its [expr_cutoff] argument has no effect
    on the result. *)
Theorem filters_ignore_expr_cutoff_once_metrics_exist
    (ax : axis) (n_key pct_key : string)
    (f : option num → option num → option num → option num →
         option num → option num → num → M unit)
    (min_n max_n min_pct max_pct min_n_counts max_n_counts : option num)
    (c c' : num) (w : World) :
  (ax, n_key, pct_key, f) ∈ filters_with_keys →
  is_Some (table ax (adata w) !! "n_counts") →
  is_Some (table ax (adata w) !! n_key) →
  is_Some (table ax (adata w) !! pct_key) →
  f min_n max_n min_pct max_pct min_n_counts max_n_counts c w
  = f min_n max_n min_pct max_pct min_n_counts max_n_counts c' w.
Proof.
  intros Hf Kc Kn Kp. unfold filters_with_keys in Hf.
  repeat (apply elem_of_cons in Hf as [[= -> -> -> ->]|Hf]);
    [..|by apply elem_of_nil in Hf];
    by apply filter_axis_cached_ignores_cutoff.
Qed.

Lemma cal_qc_run c w :
  let a := adata w in
  let shown := ge_cutoff c (X a) in
  cal_qc c w
  = (inr (),
     mk_World
       (mk_AnnData (X a) (obs_names a) (var_names a)
          (<["pct_features" :=
               NumCol (map (λ v, num_div v (num_of_nat (shape1 a))) (sum_axis1 shown))]>
             (<["n_features" := NumCol (sum_axis1 shown)]>
                (<["n_counts" := NumCol (sum_axis1 (X a))]> (obs a))))
          (<["pct_samples" :=
               NumCol (map (λ v, num_div v (num_of_nat (shape0 a)))
                         (sum_axis0 (shape1 a) shown))]>
             (<["n_samples" := NumCol (sum_axis0 (shape1 a) shown)]>
                (<["n_counts" := NumCol (sum_axis0 (shape1 a) (X a))]> (var a))))
          (layers a) (obsm a) (varm a) (uns a))
       (elbow_calls w) (stdout w)).
Proof. destruct w as [[? ? ? ? ? ? ? ? ?] ? ?]. reflexivity. Qed.

Lemma filters_ignore_expr_cutoff_once_metrics_exist_witness :
  let w := (cal_qc (num_of_Z 1) (start counts_10x5)).2 in
  filter_samples None None None None (Some (num_of_Z 5)) None (num_of_Z 1) w
  = filter_samples None None None None (Some (num_of_Z 5)) None (num_of_Z 3) w.
Proof.
  apply (filters_ignore_expr_cutoff_once_metrics_exist Samples "n_features"
           "pct_features" filter_samples).
  - unfold filters_with_keys. apply elem_of_cons. left. reflexivity.
  - rewrite cal_qc_run. cbv zeta. cbn [snd adata table obs].
    rewrite lookup_insert_ne, lookup_insert_ne, lookup_insert_eq by discriminate.
    eexists. reflexivity.
  - rewrite cal_qc_run. cbv zeta. cbn [snd adata table obs].
    rewrite lookup_insert_ne, lookup_insert_eq by discriminate.
    eexists. reflexivity.
  - rewrite cal_qc_run. cbv zeta. cbn [snd adata table obs].
    rewrite lookup_insert_eq. eexists. reflexivity.
Defined.


Lemma passes_without_thresholds n_counts n pct :
  passes_thresholds None None None None None None n_counts n pct = true.
Proof. reflexivity. Qed.



Lemma sum_axis1_expressed c rows :
  sum_axis1 (ge_cutoff c rows) = map (expressed c) rows.
Proof. unfold sum_axis1, ge_cutoff, expressed. by rewrite map_map. Qed.







Lemma np_column_ge_cutoff c j n rows :
  (j < n)%nat → Forall (λ r, length r = n) rows →
  np_column j (ge_cutoff c rows)
  = map (λ x, num_of_bool (num_ge x c)) (np_column j rows).
Proof.
  intros Hj Hrows. unfold np_column, ge_cutoff. rewrite !map_map.
  induction Hrows as [|r rows Hr _ IH]; [done|]. cbn [map]. rewrite IH. f_equal.
  rewrite list_lookup_fmap.
  destruct (r !! j) as [x|] eqn:E; [done|].
  apply lookup_ge_None in E. lia.
Qed.

Lemma sum_axis0_expressed c n rows :
  Forall (λ r, length r = n) rows →
  sum_axis0 n (ge_cutoff c rows) = map (λ j, expressed c (np_column j rows)) (seq 0 n).
Proof.
  intros Hrows. unfold sum_axis0, expressed. apply map_ext_in. intros j Hj.
  apply in_seq in Hj. by rewrite (np_column_ge_cutoff c j n) by (done || lia).
Qed.




(** On the 3×3 matrix only the first gene is seen in two cells. *)
Example filter_genes_on_3x3 :
  var_names (adata (filter_genes (Some (num_of_Z 2)) None None None None None
                      (num_of_Z 1) (start counts_3x3)).2) = ["g0"].
Proof. vm_compute. reflexivity. Qed.

(** ** What a filter leaves in place *)

Lemma cached_other ax key fresh w :
  ∃ v w', cached ax key fresh w = (inr v, w')
    ∧ untouched w w' ∧ stdout w' = stdout w
    ∧ table (other_axis ax) (adata w') = table (other_axis ax) (adata w).
Proof.
  destruct (table ax (adata w) !! key) as [c|] eqn:Hk.
  - rewrite (cached_hit _ _ _ _ _ Hk). exists (col_values c), w.
    split; [done|]. split; [apply untouched_refl|]. done.
  - rewrite (cached_miss _ _ _ _ Hk). eexists _, _. split; [reflexivity|].
    destruct ax; by repeat split.
Qed.

Lemma subset_other ax m a :
  table (other_axis ax) (inplace_subset ax m a) = table (other_axis ax) a
  ∧ axis_names (other_axis ax) (inplace_subset ax m a) = axis_names (other_axis ax) a
  ∧ uns (inplace_subset ax m a) = uns a.
Proof. by destruct ax. Qed.

Ltac step_threshold_calls :=
  match goal with
  | |- context [ mbind ?f (threshold ?msg ?thr ?test ?v ?s) ?w ] =>
      let w' := fresh "w" in
      let E := fresh "E" in
      let Ha := fresh "Ha" in
      let Hc := fresh "Hc" in
      destruct (threshold_run msg thr test v s w) as (w' & E & Ha & Hc);
      rewrite (bind_inr _ _ _ _ _ E)
  end.

(** A filter never raises, and along the other axis it changes neither the
    names nor the table. *)
Lemma filter_axis_other ax based after nk pk sl
    min_n max_n min_pct max_pct min_n_counts max_n_counts cutoff w :
  let out := filter_axis ax based after nk pk sl
               min_n max_n min_pct max_pct min_n_counts max_n_counts cutoff w in
  out.1 = inr ()
  ∧ table (other_axis ax) (adata out.2) = table (other_axis ax) (adata w)
  ∧ axis_names (other_axis ax) (adata out.2) = axis_names (other_axis ax) (adata w)
  ∧ uns (adata out.2) = uns (adata w)
  ∧ elbow_calls out.2 = elbow_calls w.
Proof.
  cbv zeta. unfold filter_axis.
  destruct (cached_other ax "n_counts"
              (λ a, map astype_int (sum_along ax a (X a))) w)
    as (vc & w1 & E1 & U1 & _ & T1).
  rewrite (bind_inr _ _ _ _ _ E1).
  destruct (cached_other ax nk
              (λ a, map astype_int (sum_along ax a (ge_cutoff cutoff (X a)))) w1)
    as (vn & w2 & E2 & U2 & _ & T2).
  rewrite (bind_inr _ _ _ _ _ E2).
  destruct (cached_other ax pk
              (λ a, map (λ v, num_div v (num_of_nat (other_size ax a))) vn) w2)
    as (vp & w3 & E3 & U3 & _ & T3).
  rewrite (bind_inr _ _ _ _ _ E3).
  assert (untouched w w3) as U
    by (eapply untouched_trans; [exact U1|]; eapply untouched_trans; eauto).
  assert (table (other_axis ax) (adata w3) = table (other_axis ax) (adata w)) as HT
    by congruence.
  pose proof (untouched_names (other_axis ax) _ _ U) as HN.
  destruct U as (_ & _ & _ & _ & _ & _ & Huns & Hcalls).
  destruct (all_unset _).
  { cbn [print fst snd adata elbow_calls]. done. }
  rewrite (bind_inr get_adata _ w3 (adata w3) w3) by reflexivity.
  do 6 step_threshold_calls.
  cbn [fst snd]. split; [done|].
  unfold mbind, M_bind, modify_adata, print, get_adata.
  cbn [fst snd adata elbow_calls stdout].
  match goal with
  | |- context [inplace_subset ax ?m ?a] =>
      destruct (subset_other ax m a) as (S1 & S2 & S3)
  end.
  repeat split; congruence.
Qed.

Lemma length_apply_threshold thr test v s :
  length v = length s → length (apply_threshold thr test v s) = length s.
Proof.
  intros H. destruct thr as [t|]; [|done]. cbn. unfold np_and.
  rewrite length_zip_with, length_map. lia.
Qed.

Lemma length_filter_mask t1 t2 t3 t4 t5 t6 vc vn vp size :
  length vc = size → length vn = size → length vp = size →
  length (filter_mask t1 t2 t3 t4 t5 t6 vc vn vp size) = size.
Proof.
  intros Hc Hn Hp. unfold filter_mask.
  assert (∀ thr test v s, length v = size → length s = size →
            length (apply_threshold thr test v s) = size) as Hstep.
  { intros thr test v s Hv Hs. rewrite length_apply_threshold; congruence. }
  do 6 (apply Hstep; [done|]). apply length_replicate.
Qed.

Lemma subset_matrix_X ax m a : X (inplace_subset ax m a) = subset_matrix ax m (X a).
Proof. by destruct ax. Qed.

Lemma subset_names ax m a :
  axis_names ax (inplace_subset ax m a) = mask_filter m (axis_names ax a).
Proof. by destruct ax. Qed.


(** A filter removes the same positions from the names of its axis and
    from the matrix. *)
Lemma filter_axis_subsets ax based after nk pk sl
    min_n max_n min_pct max_pct min_n_counts max_n_counts cutoff w :
  aligned ax (adata w) →
  let out := filter_axis ax based after nk pk sl
               min_n max_n min_pct max_pct min_n_counts max_n_counts cutoff w in
  aligned ax (adata out.2) ∧
  ∃ mask, length mask = length (axis_names ax (adata w))
    ∧ axis_names ax (adata out.2) = mask_filter mask (axis_names ax (adata w))
    ∧ X (adata out.2) = subset_matrix ax mask (X (adata w)).
Proof.
  intros Hal out. subst out.
  destruct (filter_axis_run ax based after nk pk sl
              min_n max_n min_pct max_pct min_n_counts max_n_counts cutoff w Hal)
    as (cc & cn & cp & a' & w' & -> & HX & Ho & Hv & A' & Kc & Kn & Kp & _ & R).
  cbn [snd]. rewrite R. clear R.
  assert (axis_names ax a' = axis_names ax (adata w)) as Hnames
    by (destruct ax; done).
  destruct (all_unset _).
  - split; [done|].
    exists (replicate (length (axis_names ax (adata w))) true).
    split; [apply length_replicate|].
    destruct (subset_all_true ax (adata w) Hal) as (SX & So & Sv).
    rewrite Hnames, HX. rewrite <- subset_matrix_X, <- subset_names. split; [|done].
    destruct ax; done.
  - split; [by apply aligned_subset|].
    rewrite subset_names, subset_matrix_X, HX, Hnames.
    eexists. split; [|split; reflexivity].
    rewrite <- Hnames.
    apply length_filter_mask; [exact (proj2 A' _ _ Kc)|exact (proj2 A' _ _ Kn)
                              |exact (proj2 A' _ _ Kp)].
Qed.





(** X10: a filter removes the same positions from the names of its axis
    and from the lines of the matrix along that axis, one mask entry per
    name; the names and the metadata table of the other axis, the
    unstructured store and the log of locator calls are as before. *)
Theorem filters_remove_names_and_matrix_lines_together
    (ax : axis) (n_key pct_key : string)
    (f : option num → option num → option num → option num →
         option num → option num → num → M unit)
    (min_n max_n min_pct max_pct min_n_counts max_n_counts : option num)
    (c : num) (w : World) :
  (ax, n_key, pct_key, f) ∈ filters_with_keys →
  aligned ax (adata w) →
  let out := f min_n max_n min_pct max_pct min_n_counts max_n_counts c w in
  (∃ mask, length mask = length (axis_names ax (adata w))
     ∧ axis_names ax (adata out.2) = mask_filter mask (axis_names ax (adata w))
     ∧ X (adata out.2) = subset_matrix ax mask (X (adata w)))
  ∧ axis_names (other_axis ax) (adata out.2) = axis_names (other_axis ax) (adata w)
  ∧ table (other_axis ax) (adata out.2) = table (other_axis ax) (adata w)
  ∧ uns (adata out.2) = uns (adata w)
  ∧ elbow_calls out.2 = elbow_calls w.
Proof.
  intros Hf Hal. unfold filters_with_keys in Hf.
  repeat (apply elem_of_cons in Hf as [Heq|Hf]);
    [..|by apply elem_of_nil in Hf];
    injection Heq as -> -> -> ->; cbv zeta;
    (split;
     [exact (proj2 (filter_axis_subsets _ _ _ _ _ _ _ _ _ _ _ _ c w Hal))
     |split; [|split; [|split]];
      eapply (filter_axis_other _ _ _ _ _ _ _ _ _ _ _ _ c w)]).
Qed.

Lemma filters_remove_names_and_matrix_lines_together_witness :
  let out := filter_cells_rna None (Some (num_of_Z 1)) None None None None
               (num_of_Z 1) (start counts_3x3) in
  (∃ mask, length mask = length (axis_names Samples counts_3x3)
     ∧ axis_names Samples (adata out.2) = mask_filter mask (axis_names Samples counts_3x3)
     ∧ X (adata out.2) = subset_matrix Samples mask (X counts_3x3))
  ∧ axis_names (other_axis Samples) (adata out.2)
    = axis_names (other_axis Samples) counts_3x3
  ∧ table (other_axis Samples) (adata out.2) = table (other_axis Samples) counts_3x3
  ∧ uns (adata out.2) = uns counts_3x3
  ∧ elbow_calls out.2 = [].
Proof.
  apply (filters_remove_names_and_matrix_lines_together Samples "n_genes" "pct_genes"
           filter_cells_rna None (Some (num_of_Z 1)) None None None None
           (num_of_Z 1) (start counts_3x3)).
  - unfold filters_with_keys. apply elem_of_cons; right. apply elem_of_cons. by left.
  - split; [reflexivity|]. intros k c' H.
    change ((∅ : gmap string column) !! k = Some c') in H.
    by rewrite lookup_empty in H.
Defined.



(** On the 3×3 matrix, keeping the samples with at least 4 counts leaves
    the last two; the second gene, seen in the removed sample only, still
    passes the filter on features, with a column of zeros. *)
Example stale_feature_metrics_on_3x3 :
  let w1 := (cal_qc (num_of_Z 1) (start counts_3x3)).2 in
  let w2 := (filter_samples None None None None (Some (num_of_Z 4)) None
               (num_of_Z 1) w1).2 in
  let out := (filter_features (Some (num_of_Z 1)) None None None None None
                (num_of_Z 1) w2).2 in
  obs_names (adata out) = ["s1"; "s2"]
  ∧ var_names (adata out) = ["g0"; "g1"; "g2"]
  ∧ X (adata out) = [ints [1; 0; 3]; ints [4; 0; 0]]%Z.
Proof. vm_compute. repeat split; reflexivity. Qed.

(** ** What [cal_qc] stores *)

Lemma np_sum_indicator (f : num → bool) l :
  np_sum (map (λ x, num_of_bool (f x)) l) = num_of_nat (length (List.filter f l)).
Proof.
  induction l as [|x l IH].
  { unfold num_of_nat, num_of_Z. cbn [map np_sum foldr List.filter length Z.of_nat].
    change (Z.of_nat 0) with 0%Z. by rewrite Z2Qc_inj_0. }
  cbn [map np_sum foldr List.filter]. fold (np_sum (map (λ x, num_of_bool (f x)) l)).
  rewrite IH. unfold num_of_nat, num_of_bool, num_of_Z.
  destruct (f x); cbn [num_add length]; f_equal; rewrite <- Z2Qc_inj_add; f_equal; lia.
Qed.

Lemma expressed_counts c row :
  expressed c row = num_of_nat (length (List.filter (λ x, num_ge x c) row)).
Proof. apply np_sum_indicator. Qed.

Lemma length_filter_le {A} (f : A → bool) l : (length (List.filter f l) ≤ length l)%nat.
Proof. induction l as [|x l IH]; cbn; [lia|]. destruct (f x); cbn; lia. Qed.

Lemma fraction_of_none : num_div (num_of_nat 0) (num_of_nat 0) = NaN.
Proof.
  unfold num_of_nat, num_of_Z. change (Z.of_nat 0) with 0%Z.
  rewrite Z2Qc_inj_0. apply zero_over_zero.
Qed.

Lemma fraction_bounds (k n : nat) :
  (k ≤ n)%nat → (0 < n)%nat →
  let p := num_div (num_of_nat k) (num_of_nat n) in
  num_ge p (num_of_Z 0) = true ∧ num_le p (num_of_Z 1) = true.
Proof.
  intros Hk Hn. cbv zeta. unfold num_of_nat, num_of_Z, num_div, num_le.
  assert (0 < Qc_of_Z (Z.of_nat n))%Qc as HN
    by (rewrite <- Z2Qc_inj_0; apply (proj1 (Z2Qc_inj_lt _ _)); lia).
  assert (0 ≤ Qc_of_Z (Z.of_nat k))%Qc as HK
    by (rewrite <- Z2Qc_inj_0; apply (proj1 (Z2Qc_inj_le _ _)); lia).
  assert (Qc_of_Z (Z.of_nat k) ≤ Qc_of_Z (Z.of_nat n))%Qc as HKN
    by (apply (proj1 (Z2Qc_inj_le _ _)); lia).
  assert (0 ≤ / Qc_of_Z (Z.of_nat n))%Qc as Hinv
    by (apply Qclt_le_weak, Qcinv_pos, HN).
  destruct (decide (Qc_of_Z (Z.of_nat n) = 0%Qc)) as [E|NE].
  { rewrite E in HN. by apply Qclt_not_eq in HN. }
  cbn [num_ge]. rewrite Z2Qc_inj_0, Z2Qc_inj_1. unfold Qcdiv.
  split; apply bool_decide_eq_true_2.
  - by apply Qcmult_nonneg_nonneg.
  - rewrite <- (Qcmult_inv_r (Qc_of_Z (Z.of_nat n))) by done.
    by apply Qcmult_le_mono_nonneg_r.
Qed.

(** X12: the two counts [cal_qc] stores are numbers of entries: for every
    sample the number of its entries at or above the cutoff, for every
    feature the number of samples whose entry is. *)
Theorem cal_qc_counts_the_entries_at_or_above_the_cutoff (c : num) (w : World) :
  Forall (λ r, length r = shape1 (adata w)) (X (adata w)) →
  let shown row := length (List.filter (λ x, num_ge x c) row) in
  let out := cal_qc c w in
  out.1 = inr ()
  ∧ obs (adata out.2) !! "n_features"
    = Some (NumCol (map (λ row, num_of_nat (shown row)) (X (adata w))))
  ∧ var (adata out.2) !! "n_samples"
    = Some (NumCol (map (λ j, num_of_nat (shown (np_column j (X (adata w)))))
                      (seq 0 (shape1 (adata w))))).
Proof.
  intros Hrows shown out. subst out. rewrite cal_qc_run. cbv zeta.
  cbn [fst snd adata obs var]. split; [done|]. split.
  - rewrite lookup_insert_ne, lookup_insert_eq by done.
    rewrite sum_axis1_expressed. do 2 f_equal. apply map_ext. intros row.
    apply expressed_counts.
  - rewrite lookup_insert_ne, lookup_insert_eq by done.
    rewrite (sum_axis0_expressed _ _ _ Hrows). do 2 f_equal. apply map_ext. intros j.
    apply expressed_counts.
Qed.

Lemma cal_qc_counts_the_entries_at_or_above_the_cutoff_witness :
  let shown row := length (List.filter (λ x, num_ge x (num_of_Z 1)) row) in
  let out := cal_qc (num_of_Z 1) (start counts_10x5) in
  out.1 = inr ()
  ∧ obs (adata out.2) !! "n_features"
    = Some (NumCol (map (λ row, num_of_nat (shown row)) (X counts_10x5)))
  ∧ var (adata out.2) !! "n_samples"
    = Some (NumCol (map (λ j, num_of_nat (shown (np_column j (X counts_10x5))))
                      (seq 0 5))).
Proof.
  apply (cal_qc_counts_the_entries_at_or_above_the_cutoff (num_of_Z 1)
           (start counts_10x5)).
  repeat constructor.
Defined.

(** X13: on a matrix with one row per sample and one entry per feature in
    every row, the fractions [cal_qc] stores lie between 0 and 1 when the
    axis they are taken over is not empty, and are all NaN (no exception)
    when it is: [pct_features] over the features, [pct_samples] over the
    samples. *)
Theorem cal_qc_fractions (c : num) (w : World) :
  length (X (adata w)) = shape0 (adata w) →
  Forall (λ r, length r = shape1 (adata w)) (X (adata w)) →
  let unit_interval p := num_ge p (num_of_Z 0) = true ∧ num_le p (num_of_Z 1) = true in
  let out := cal_qc c w in
  out.1 = inr ()
  ∧ (∃ pct, obs (adata out.2) !! "pct_features" = Some (NumCol pct)
       ∧ length pct = shape0 (adata w)
       ∧ if decide (shape1 (adata w) = 0)%nat then Forall (λ p, p = NaN) pct
         else Forall unit_interval pct)
  ∧ (∃ pct, var (adata out.2) !! "pct_samples" = Some (NumCol pct)
       ∧ length pct = shape1 (adata w)
       ∧ if decide (shape0 (adata w) = 0)%nat then Forall (λ p, p = NaN) pct
         else Forall unit_interval pct).
Proof.
  intros Hlen Hrows unit_interval out. subst out. rewrite cal_qc_run. cbv zeta.
  cbn [fst snd adata obs var]. split; [done|]. split.
  - eexists. rewrite lookup_insert_eq. split; [reflexivity|].
    rewrite sum_axis1_expressed, map_map. split; [by rewrite length_map|].
    rewrite Forall_forall in Hrows.
    destruct (decide (shape1 (adata w) = 0)%nat) as [E|NE];
      apply Forall_map, Forall_forall; intros row Hrow; cbv beta;
      rewrite expressed_counts;
      pose proof (length_filter_le (λ x, num_ge x c) row) as Hle;
      rewrite (Hrows row Hrow) in Hle.
    + rewrite E in *. replace (length (List.filter _ row)) with 0%nat by lia.
      apply fraction_of_none.
    + apply fraction_bounds; lia.
  - eexists. rewrite lookup_insert_eq. split; [reflexivity|].
    rewrite (sum_axis0_expressed _ _ _ Hrows), map_map.
    split; [by rewrite length_map, length_seq|].
    destruct (decide (shape0 (adata w) = 0)%nat) as [E|NE];
      apply Forall_map, Forall_forall; intros j Hj; cbv beta;
      rewrite expressed_counts;
      pose proof (length_filter_le (λ x, num_ge x c) (np_column j (X (adata w)))) as Hle;
      unfold np_column in Hle at 2; rewrite length_map, Hlen in Hle.
    + rewrite E in *.
      replace (length (List.filter _ (np_column j (X (adata w))))) with 0%nat by lia.
      apply fraction_of_none.
    + apply fraction_bounds; lia.
Qed.

Lemma cal_qc_fractions_witness :
  let unit_interval p := num_ge p (num_of_Z 0) = true ∧ num_le p (num_of_Z 1) = true in
  let out := cal_qc (num_of_Z 1) (start counts_3x3) in
  out.1 = inr ()
  ∧ (∃ pct, obs (adata out.2) !! "pct_features" = Some (NumCol pct)
       ∧ length pct = 3%nat
       ∧ if decide (3 = 0)%nat then Forall (λ p, p = NaN) pct
         else Forall unit_interval pct)
  ∧ (∃ pct, var (adata out.2) !! "pct_samples" = Some (NumCol pct)
       ∧ length pct = 3%nat
       ∧ if decide (3 = 0)%nat then Forall (λ p, p = NaN) pct
         else Forall unit_interval pct).
Proof.
  apply (cal_qc_fractions (num_of_Z 1) (start counts_3x3)).
  - reflexivity.
  - repeat constructor.
Defined.

(** A dataset of two samples and no feature: both fractions of every
    sample's row are 0/0. *)
Example cal_qc_without_features :
  obs (adata (cal_qc (num_of_Z 1) (start (empty_adata [[]; []] ["s0"; "s1"] []))).2)
    !! "pct_features" = Some (NumCol [NaN; NaN]).
Proof. vm_compute. reflexivity. Qed.

(** ** Failing and degenerate selections *)

(** X14: [select_pcs] stores nothing when it fails: either a key is missing
    and it raises [KeyError] before calling the locator, or the locator was
    called once and the exception is the locator's; the dataset is as
    before in both cases. *)
Theorem select_pcs_stores_nothing_when_it_fails
    (locate_elbow : ElbowCall → exn + option Z)
    (n_pcs : option Z) (S : num) (curve direction : string) (online : bool)
    (min_elbow : option num) (kwargs : gmap string num) (w : World) (e : exn) :
  let out := select_pcs locate_elbow n_pcs S curve direction online min_elbow kwargs w in
  out.1 = inl e →
  adata out.2 = adata w ∧ stdout out.2 = stdout w
  ∧ ((elbow_calls out.2 = elbow_calls w ∧ ∃ key, e = KeyError key)
     ∨ (∃ c, elbow_calls out.2 = (elbow_calls w ++ [c])%list ∧ locate_elbow c = inl e)).
Proof.
  cbv zeta. destruct n_pcs as [n|].
  - destruct (uns (adata w) !! "pca") as [d|] eqn:Hd.
    + rewrite (select_pcs_explicit_run _ _ _ _ _ _ _ _ _ _ Hd). discriminate.
    + unfold select_pcs. rewrite (update_pca_fail _ _ Hd). cbn [fst snd].
      intros [= <-]. split; [done|]. split; [done|]. left. eauto.
  - destruct (obsm (adata w) !! "X_pca") as [P|] eqn:HP.
    2:{ unfold select_pcs.
        rewrite (bind_inr get_adata _ w (adata w) w) by reflexivity. rewrite HP.
        cbn [fst snd]. intros [= <-]. split; [done|]. split; [done|]. left. eauto. }
    destruct (uns (adata w) !! "pca") as [d|] eqn:Hd.
    2:{ unfold select_pcs.
        rewrite (bind_inr get_adata _ w (adata w) w) by reflexivity. rewrite HP.
        rewrite (bind_inr (lift_option _ (Some P)) _ w P w) by reflexivity.
        rewrite (bind_inl _ _ _ _ _ (get_pca_fail w Hd)).
        cbn [fst snd]. intros [= <-]. split; [done|]. split; [done|]. left. eauto. }
    destruct (variance_ratio d) as [y|] eqn:Hy.
    2:{ unfold select_pcs.
        rewrite (bind_inr get_adata _ w (adata w) w) by reflexivity. rewrite HP.
        rewrite (bind_inr (lift_option _ (Some P)) _ w P w) by reflexivity.
        rewrite (bind_inr _ _ _ _ _ (get_pca_run w d Hd)). rewrite Hy.
        cbn [fst snd]. intros [= <-]. split; [done|]. split; [done|]. left. eauto. }
    rewrite (select_pcs_locator_run _ _ _ _ _ _ _ _ _ _ _ HP Hd Hy). cbv zeta.
    destruct (locate_elbow _) as [e'|r] eqn:Hc; [|discriminate].
    cbn [fst snd adata elbow_calls stdout]. intros [= <-].
    split; [done|]. split; [done|]. right. eauto.
Qed.

Lemma select_pcs_stores_nothing_when_it_fails_witness :
  let w := start (after_pca six_names (pca_store None None)) in
  let locator := locator_const (inl (ValueError "no elbow")) in
  let out := select_pcs locator None (num_of_Z 1) "convex" "decreasing" false None ∅ w in
  adata out.2 = adata w ∧ stdout out.2 = stdout w
  ∧ ((elbow_calls out.2 = elbow_calls w ∧ ∃ key, ValueError "no elbow" = KeyError key)
     ∨ (∃ c, elbow_calls out.2 = (elbow_calls w ++ [c])%list
             ∧ locator c = inl (ValueError "no elbow"))).
Proof.
  apply (select_pcs_stores_nothing_when_it_fails
           (locator_const (inl (ValueError "no elbow"))) None (num_of_Z 1)
           "convex" "decreasing" false None ∅
           (start (after_pca six_names (pca_store None None)))
           (ValueError "no elbow")).
  reflexivity.
Defined.


Section DegenerateSelections.
Variable locate_elbow : ElbowCall → exn + option Z.
Variable np_argsort : list num → list nat.

End DegenerateSelections.


(** ** The calls of [select_pcs_features] *)

Section AnsweringLocator.
(** A locator that answers every call, with an index or with [None]. *)
Variable elbow_of : ElbowCall → option Z.
Variable np_argsort : list num → list nat.

Lemma body_out_of_range S me kwargs nf i acc w P :
  varm (adata w) !! "PCs" = Some P → (nd_ncols P ≤ i)%nat →
  select_pcs_features_body (λ c, inr (elbow_of c)) np_argsort S me kwargs nf i acc w
  = (inl IndexError, w).
Proof.
  intros HP Hi. unfold select_pcs_features_body.
  rewrite (bind_inr get_adata _ w (adata w) w) by reflexivity.
  rewrite HP. rewrite (bind_inr (lift_option _ (Some P)) _ w P w) by reflexivity.
  by rewrite bool_decide_eq_true_2.
Qed.

(** The loop calls the locator for one component after the other, as far
    as there are components. *)
Lemma loop_answered S me kwargs P n :
  ∀ s acc w d pcs,
    varm (adata w) !! "PCs" = Some P →
    uns (adata w) !! "pca" = Some d → features d = Some pcs →
    (s ≤ nd_ncols P)%nat →
    ∃ r w1,
      for_loop (select_pcs_features_body (λ c, inr (elbow_of c)) np_argsort
                  S me kwargs (nd_shape0 P)) (seq s n) acc w = (r, w1)
      ∧ elbow_calls w1
        = (elbow_calls w
           ++ map (component_call S me kwargs P) (seq s (n `min` (nd_ncols P - s))))%list
      ∧ var (adata w1) = var (adata w)
      ∧ (if decide (s + n ≤ nd_ncols P)%nat then ∃ ids, r = inr ids
         else r = inl IndexError).
Proof.
  induction n as [|n IH]; intros s acc w d pcs HP Hd Hf Hs.
  - eexists _, w. split; [reflexivity|]. cbn [Nat.min seq map].
    rewrite app_nil_r. split; [done|]. split; [done|].
    rewrite decide_True by lia. by eexists.
  - cbn [seq for_loop].
    destruct (decide (s < nd_ncols P)%nat) as [Hlt|Hge].
    + pose proof (body_run (λ c, inr (elbow_of c)) np_argsort S me kwargs
                    (nd_shape0 P) s acc w P HP Hlt) as Hb.
      cbv zeta in Hb. rewrite Hd, Hf in Hb.
      rewrite (bind_inr _ _ _ _ _ Hb).
      set (w' := mk_World _ _ _).
      destruct (IH (Datatypes.S s) (acc ++ py_slice_to
                      (elbow_of (component_call S me kwargs P s))
                      (rev (np_argsort (map num_abs (np_column s (nd_rows P))))))%list
                  w' _ _ HP (lookup_insert_eq _ _ _) eq_refl Hlt)
        as (r & w1 & Hrun & Hcalls & Hvar & Hr).
      exists r, w1. split; [exact Hrun|].
      replace (Datatypes.S n `min` (nd_ncols P - s))%nat
        with (Datatypes.S (n `min` (nd_ncols P - Datatypes.S s)))%nat by lia.
      cbn [seq map]. split.
      { rewrite Hcalls. subst w'. cbn [elbow_calls]. by rewrite <- app_assoc. }
      split; [exact Hvar|].
      destruct (decide (Datatypes.S s + n ≤ nd_ncols P)%nat);
        [rewrite decide_True by lia|rewrite decide_False by lia]; exact Hr.
    + rewrite (bind_inl _ _ _ _ _ (body_out_of_range S me kwargs _ s acc w P HP
                                     ltac:(lia))).
      exists (inl IndexError), w. split; [done|].
      replace (Datatypes.S n `min` (nd_ncols P - s))%nat with 0%nat by lia.
      cbn [seq map]. rewrite app_nil_r. split; [done|]. split; [done|].
      by rewrite decide_False by lia.
Qed.

Lemma calls_once_per_component S curve direction online min_elbow kwargs w d k P :
  uns (adata w) !! "pca" = Some d →
  n_pcs d = Some (Some k) →
  varm (adata w) !! "PCs" = Some P →
  let me := default (num_div (num_of_nat (nd_shape0 P)) (num_of_Z 10)) min_elbow in
  let out := select_pcs_features (λ c, inr (elbow_of c)) np_argsort
               S curve direction online min_elbow kwargs w in
  elbow_calls out.2
  = (elbow_calls w
     ++ map (component_call S me kwargs P) (seq 0 (Z.to_nat k `min` nd_ncols P)))%list.
Proof.
  intros Hd Hn HP me out. subst out.
  rewrite (select_pcs_features_run _ _ _ _ _ _ _ _ _ _ _ _ Hd Hn HP). cbv zeta.
  set (w0 := mk_World _ _ _).
  destruct (loop_answered S me kwargs P (Z.to_nat k) 0 [] w0
              (set_features ∅ d) ∅ HP (lookup_insert_eq _ _ _) eq_refl ltac:(lia))
    as (r & w1 & Hrun & Hcalls & _ & _).
  rewrite Nat.sub_0_r in Hcalls. subst w0. cbn [elbow_calls] in Hcalls.
  fold me. unfold mbind, M_bind. rewrite Hrun. destruct r as [e|ids]; [done|].
  by rewrite (proj1 (proj2 (write_top_pcs_frame ids w1))).
Qed.

(** X16: with a locator that answers every call, [select_pcs_features]
    calls it once for each of the first [n_pcs] components, in their order
    and never beyond the last component: the call for component [i] carries
    the positions of all features and the absolute loadings of that
    component in descending order. *)
Theorem select_pcs_features_calls_once_per_component
    (S : num) (curve direction : string) (online : bool)
    (min_elbow : option num) (kwargs : gmap string num)
    (w : World) (d : pca_dict) (k : Z) (P : ndarray) :
  uns (adata w) !! "pca" = Some d →
  n_pcs d = Some (Some k) →
  varm (adata w) !! "PCs" = Some P →
  let me := default (num_div (num_of_nat (nd_shape0 P)) (num_of_Z 10)) min_elbow in
  let out := select_pcs_features (λ c, inr (elbow_of c)) np_argsort
               S curve direction online min_elbow kwargs w in
  elbow_calls out.2
  = (elbow_calls w
     ++ map (component_call S me kwargs P) (seq 0 (Z.to_nat k `min` nd_ncols P)))%list.
Proof. apply calls_once_per_component. Qed.

(** X17: when the stored count exceeds the number of components of
    [varm['PCs']], [select_pcs_features] with a locator that answers every
    call raises [IndexError] after the call for the last component, and the
    feature table is as it was: no column ['top_pcs'] is written. *)
Theorem select_pcs_features_beyond_the_components
    (S : num) (curve direction : string) (online : bool)
    (min_elbow : option num) (kwargs : gmap string num)
    (w : World) (d : pca_dict) (k : Z) (P : ndarray) :
  uns (adata w) !! "pca" = Some d →
  n_pcs d = Some (Some k) →
  varm (adata w) !! "PCs" = Some P →
  (Z.of_nat (nd_ncols P) < k)%Z →
  let out := select_pcs_features (λ c, inr (elbow_of c)) np_argsort
               S curve direction online min_elbow kwargs w in
  out.1 = inl IndexError
  ∧ var (adata out.2) = var (adata w)
  ∧ length (elbow_calls out.2) = (length (elbow_calls w) + nd_ncols P)%nat.
Proof.
  intros Hd Hn HP Hk out. subst out.
  rewrite (select_pcs_features_run _ _ _ _ _ _ _ _ _ _ _ _ Hd Hn HP). cbv zeta.
  set (w0 := mk_World _ _ _).
  set (me := default _ _).
  destruct (loop_answered S me kwargs P (Z.to_nat k) 0 [] w0
              (set_features ∅ d) ∅ HP (lookup_insert_eq _ _ _) eq_refl ltac:(lia))
    as (r & w1 & Hrun & Hcalls & Hvar & Hr).
  rewrite decide_False in Hr by lia. subst r.
  unfold mbind, M_bind. rewrite Hrun. cbn [fst snd].
  split; [done|]. split; [by rewrite Hvar|].
  rewrite Hcalls, length_app, length_map, length_seq. subst w0. cbn [elbow_calls]. lia.
Qed.
End AnsweringLocator.

Lemma select_pcs_features_calls_once_per_component_witness :
  let w := start (after_pca six_names (pca_store (Some (Some 2%Z)) None)) in
  let me := default (num_div (num_of_nat 6) (num_of_Z 10)) None in
  let out := select_pcs_features (λ c, inr (Some 3%Z)) argsort_by_position
               (num_of_Z 1) "convex" "decreasing" false None ∅ w in
  elbow_calls out.2
  = ([] ++ map (component_call (num_of_Z 1) me ∅ two_components)
             (seq 0 (Z.to_nat 2 `min` 2)))%list.
Proof.
  apply (select_pcs_features_calls_once_per_component (λ _, Some 3%Z)
           argsort_by_position (num_of_Z 1) "convex" "decreasing" false None ∅
           (start (after_pca six_names (pca_store (Some (Some 2%Z)) None)))
           (pca_store (Some (Some 2%Z)) None) 2 two_components).
  - reflexivity.
  - reflexivity.
  - reflexivity.
Defined.

Lemma select_pcs_features_beyond_the_components_witness :
  let w := start (after_pca six_names (pca_store (Some (Some 3%Z)) None)) in
  let out := select_pcs_features (λ c, inr (Some 3%Z)) argsort_by_position
               (num_of_Z 1) "convex" "decreasing" false None ∅ w in
  out.1 = inl IndexError
  ∧ var (adata out.2) = var (adata w)
  ∧ length (elbow_calls out.2) = (length (elbow_calls w) + 2)%nat.
Proof.
  apply (select_pcs_features_beyond_the_components (λ _, Some 3%Z)
           argsort_by_position (num_of_Z 1) "convex" "decreasing" false None ∅
           (start (after_pca six_names (pca_store (Some (Some 3%Z)) None)))
           (pca_store (Some (Some 3%Z)) None) 3 two_components).
  - reflexivity.
  - reflexivity.
  - reflexivity.
  - cbn. lia.
Defined.

(** ** pca *)

Section PcaFacts.
Variable truncated_svd_fit : SvdParams → list (list num) → exn + SvdFit.

Lemma pca_run n_components algorithm n_iter random_state tol w :
  let a := adata w in
  pca truncated_svd_fit n_components algorithm n_iter random_state tol w
  = match truncated_svd_fit
            (mk_SvdParams n_components algorithm n_iter random_state (num_of_Z 0))
            (X a) with
    | inl e => (inl e, w)
    | inr svd =>
        (inr (),
         mk_World
           (mk_AnnData (X a) (obs_names a) (var_names a) (obs a) (var a) (layers a)
              (<["X_pca" := svd_transform svd (X a)]> (obsm a))
              (<["PCs" := nd_transpose (components_ svd)]> (varm a))
              (<["pca" := mk_pca_dict (Some (explained_variance_ svd))
                                      (Some (explained_variance_ratio_ svd))
                                      None None]> (uns a)))
           (elbow_calls w) (stdout w))
    end.
Proof.
  cbv zeta. unfold pca.
  rewrite (bind_inr get_adata _ w (adata w) w) by reflexivity.
  destruct (truncated_svd_fit _ _) as [e|svd]; [done|].
  rewrite (bind_inr (lift_result (inr svd)) _ w svd w) by reflexivity.
  unfold mbind at 1, M_bind at 1, modify_adata at 1.
  unfold mbind at 1, M_bind at 1, modify_adata at 1.
  unfold mbind at 1, M_bind at 1, modify_adata at 1.
  cbn [adata elbow_calls stdout set_obsm set_varm set_uns X obs_names var_names obs var
       layers obsm varm uns].
  unfold mbind at 1, M_bind at 1.
  rewrite (update_pca_run _ (mk_World _ _ _) (mk_pca_dict None None None None))
    by (cbn [adata uns]; apply lookup_insert_eq).
  rewrite (update_pca_run _ (mk_World _ _ _)
             (set_variance (explained_variance_ svd) (mk_pca_dict None None None None)))
    by (cbn [adata uns set_uns]; apply lookup_insert_eq).
  cbn [adata elbow_calls stdout set_uns X obs_names var_names obs var
       layers obsm varm uns].
  by rewrite !insert_insert_eq.
Qed.

(** X18: [pca] drops whatever a previous selection stored: after a fit that
    succeeds, [adata.uns['pca']] holds the two variance arrays and nothing
    else, whatever it held before, so that [select_pcs_features] called next
    raises [KeyError] for ['n_pcs'], for any locator, and changes nothing. *)
Theorem pca_discards_an_earlier_selection
    (locate_elbow : ElbowCall → exn + option Z) (np_argsort : list num → list nat)
    (n_components : Z) (algorithm : string) (n_iter random_state : Z) (tol : num)
    (S : num) (curve direction : string) (online : bool)
    (min_elbow : option num) (kwargs : gmap string num)
    (w : World) (svd : SvdFit) :
  truncated_svd_fit
    (mk_SvdParams n_components algorithm n_iter random_state (num_of_Z 0))
    (X (adata w)) = inr svd →
  let fitted := pca truncated_svd_fit n_components algorithm n_iter random_state tol w in
  let out := select_pcs_features locate_elbow np_argsort
               S curve direction online min_elbow kwargs fitted.2 in
  fitted.1 = inr ()
  ∧ uns (adata fitted.2) !! "pca"
    = Some (mk_pca_dict (Some (explained_variance_ svd))
                        (Some (explained_variance_ratio_ svd)) None None)
  ∧ out = (inl (KeyError "n_pcs"), fitted.2).
Proof.
  intros Hfit fitted out. subst out fitted. rewrite pca_run. cbv zeta. rewrite Hfit.
  cbn [fst snd]. set (w1 := mk_World _ _ _).
  assert (uns (adata w1) !! "pca"
          = Some (mk_pca_dict (Some (explained_variance_ svd))
                              (Some (explained_variance_ratio_ svd)) None None)) as Hd
    by (subst w1; cbn [adata uns]; apply lookup_insert_eq).
  split; [done|]. split; [exact Hd|].
  unfold select_pcs_features.
  by rewrite (bind_inr _ _ _ _ _ (get_pca_run w1 _ Hd)).
Qed.

(** X19: [select_pcs] without a count, called after a fit that succeeds,
    asks the locator once, about as many positions as there are fitted
    components and the explained variance ratios of the fit, with a tenth
    of the number of components as the least elbow unless one is given;
    what the locator answers is stored beside the two variance arrays. *)
Theorem pca_then_select_pcs
    (locate_elbow : ElbowCall → exn + option Z)
    (n_components : Z) (algorithm : string) (n_iter random_state : Z) (tol : num)
    (S : num) (curve direction : string) (online : bool)
    (min_elbow : option num) (kwargs : gmap string num)
    (w : World) (svd : SvdFit) (r : option Z) :
  truncated_svd_fit
    (mk_SvdParams n_components algorithm n_iter random_state (num_of_Z 0))
    (X (adata w)) = inr svd →
  let k := nd_shape0 (components_ svd) in
  let c := mk_ElbowCall (seq 0 k) (explained_variance_ratio_ svd) S
             (default (num_div (num_of_nat k) (num_of_Z 10)) min_elbow)
             None (Some direction) (Some online) kwargs in
  locate_elbow c = inr r →
  let fitted := pca truncated_svd_fit n_components algorithm n_iter random_state tol w in
  let out := select_pcs locate_elbow None S curve direction online min_elbow kwargs
               fitted.2 in
  out.1 = inr ()
  ∧ elbow_calls out.2 = (elbow_calls w ++ [c])%list
  ∧ uns (adata out.2) !! "pca"
    = Some (mk_pca_dict (Some (explained_variance_ svd))
                        (Some (explained_variance_ratio_ svd)) (Some r) None).
Proof.
  intros Hfit k c Hr fitted out. subst out fitted. rewrite pca_run. cbv zeta.
  rewrite Hfit. cbn [snd]. set (w1 := mk_World _ _ _).
  rewrite (select_pcs_locator_run locate_elbow S curve direction online min_elbow kwargs
             w1 (svd_transform svd (X (adata w)))
             (mk_pca_dict (Some (explained_variance_ svd))
                          (Some (explained_variance_ratio_ svd)) None None)
             (explained_variance_ratio_ svd));
    [|subst w1; cbn [adata obsm uns]; apply lookup_insert_eq..|reflexivity].
  cbv zeta. cbn [svd_transform nd_ncols]. fold k. fold c. rewrite Hr.
  subst w1. cbn [fst snd adata elbow_calls set_uns uns].
  split; [done|]. split; [done|]. by rewrite lookup_insert_eq.
Qed.
End PcaFacts.

(** X20: [pca] does not pass its argument [tol] on: the estimator is always
    set up with tolerance 0, so two fitting procedures that agree whenever
    the tolerance is 0 give the same result, whatever values of [tol] the
    two calls are given. *)
Theorem pca_always_fits_with_tolerance_zero
    (fit fit' : SvdParams → list (list num) → exn + SvdFit)
    (n_components : Z) (algorithm : string) (n_iter random_state : Z)
    (tol tol' : num) (w : World) :
  (∀ p rows, svd_tol p = num_of_Z 0 → fit p rows = fit' p rows) →
  pca fit n_components algorithm n_iter random_state tol w
  = pca fit' n_components algorithm n_iter random_state tol' w.
Proof.
  intros Hagree. rewrite !pca_run. cbv zeta. by rewrite Hagree.
Qed.

Lemma pca_always_fits_with_tolerance_zero_witness :
  pca (fit_const (inr two_fitted)) 2 "randomized" 5 2021 (num_of_Z 0) (start six_features)
  = pca fit_at_tolerance_zero 2 "randomized" 5 2021 (num_of_Z 1) (start six_features).
Proof.
  apply (pca_always_fits_with_tolerance_zero (fit_const (inr two_fitted))
           fit_at_tolerance_zero 2 "randomized" 5 2021 (num_of_Z 0) (num_of_Z 1)
           (start six_features)).
  intros p rows Hp. unfold fit_at_tolerance_zero, fit_const. by rewrite decide_True.
Defined.

Lemma pca_discards_an_earlier_selection_witness :
  let w := start (after_pca six_names (pca_store (Some (Some 2%Z)) (Some ∅))) in
  let fitted := pca (fit_const (inr two_fitted)) 2 "randomized" 5 2021 (num_of_Z 0) w in
  let out := select_pcs_features (locator_const (inr (Some 3%Z))) argsort_by_position
               (num_of_Z 1) "convex" "decreasing" false None ∅ fitted.2 in
  fitted.1 = inr ()
  ∧ uns (adata fitted.2) !! "pca"
    = Some (mk_pca_dict (Some (explained_variance_ two_fitted))
                        (Some (explained_variance_ratio_ two_fitted)) None None)
  ∧ out = (inl (KeyError "n_pcs"), fitted.2).
Proof.
  apply (pca_discards_an_earlier_selection (fit_const (inr two_fitted))
           (locator_const (inr (Some 3%Z))) argsort_by_position
           2 "randomized" 5 2021 (num_of_Z 0)
           (num_of_Z 1) "convex" "decreasing" false None ∅
           (start (after_pca six_names (pca_store (Some (Some 2%Z)) (Some ∅))))
           two_fitted).
  reflexivity.
Defined.

Lemma pca_then_select_pcs_witness :
  let c := mk_ElbowCall (seq 0 2) (explained_variance_ratio_ two_fitted) (num_of_Z 1)
             (default (num_div (num_of_nat 2) (num_of_Z 10)) None)
             None (Some "decreasing") (Some false) ∅ in
  let fitted := pca (fit_const (inr two_fitted)) 2 "randomized" 5 2021 (num_of_Z 0)
                  (start six_features) in
  let out := select_pcs (locator_const (inr (Some 1%Z))) None (num_of_Z 1)
               "convex" "decreasing" false None ∅ fitted.2 in
  out.1 = inr ()
  ∧ elbow_calls out.2 = ([] ++ [c])%list
  ∧ uns (adata out.2) !! "pca"
    = Some (mk_pca_dict (Some (explained_variance_ two_fitted))
                        (Some (explained_variance_ratio_ two_fitted))
                        (Some (Some 1%Z)) None).
Proof.
  apply (pca_then_select_pcs (fit_const (inr two_fitted))
           (locator_const (inr (Some 1%Z))) 2 "randomized" 5 2021 (num_of_Z 0)
           (num_of_Z 1) "convex" "decreasing" false None ∅
           (start six_features) two_fitted (Some 1%Z)).
  - reflexivity.
  - reflexivity.
Defined.

(** ** From the fit to the selection *)

Lemma lookup_all_positions {A} (d : A) l :
  map (λ j, default d (l !! j)) (seq 0 (length l)) = l.
Proof.
  induction l as [|x l IH]; [done|]. cbn [length seq map]. f_equal.
  rewrite <- seq_shift, map_map. exact IH.
Qed.

Lemma transpose_column C i row :
  nd_rows C !! i = Some row → length row = nd_ncols C →
  np_column i (nd_rows (nd_transpose C)) = row.
Proof.
  intros Hi Hlen. unfold nd_transpose, np_column. cbn [nd_rows]. rewrite map_map.
  transitivity (map (λ j, default (Fin 0%Qc) (row !! j)) (seq 0 (length row)));
    [|apply lookup_all_positions].
  rewrite Hlen. apply map_ext. intros j. by rewrite list_lookup_fmap, Hi.
Qed.

Lemma map_positions_as_rows {A B} (g : nat → B) (h : A → B) (rows : list A) :
  ∀ k, (∀ i row, rows !! i = Some row → g i = h row) →
       map g (seq 0 (k `min` length rows)) = map h (take k rows).
Proof.
  revert g. induction rows as [|r rows IH]; intros g k Hg.
  - rewrite Nat.min_0_r. by rewrite take_nil.
  - destruct k as [|k]; [done|]. cbn [length Nat.min seq map take].
    rewrite (Hg 0%nat r eq_refl). f_equal.
    rewrite <- seq_shift, map_map. apply (IH (λ i, g (Datatypes.S i))).
    intros i row Hi. by apply Hg.
Qed.

(** X21: the whole chain.  After a fit that succeeds and gives components
    with one entry per feature, and a count of components set by hand,
    [select_pcs_features] with a locator that answers every call asks it
    about the first [n_pcs] fitted components, one after the other: about
    the absolute entries of each, in descending order, and the positions of
    all the features. *)
Theorem selection_after_pca_ranks_the_fitted_components
    (truncated_svd_fit : SvdParams → list (list num) → exn + SvdFit)
    (elbow_of : ElbowCall → option Z) (np_argsort : list num → list nat)
    (n_components : Z) (algorithm : string) (n_iter random_state : Z) (tol : num)
    (S : num) (curve direction : string) (online : bool)
    (min_elbow : option num) (kwargs : gmap string num)
    (w : World) (svd : SvdFit) (k : Z) :
  truncated_svd_fit
    (mk_SvdParams n_components algorithm n_iter random_state (num_of_Z 0))
    (X (adata w)) = inr svd →
  Forall (λ r, length r = nd_ncols (components_ svd)) (nd_rows (components_ svd)) →
  let n_features := nd_ncols (components_ svd) in
  let me := default (num_div (num_of_nat n_features) (num_of_Z 10)) min_elbow in
  let locator := λ c, inr (elbow_of c) in
  let w1 := (pca truncated_svd_fit n_components algorithm n_iter random_state tol w).2 in
  let w2 := (select_pcs locator (Some k) S curve direction online min_elbow kwargs w1).2 in
  let out := select_pcs_features locator np_argsort
               S curve direction online min_elbow kwargs w2 in
  elbow_calls out.2
  = (elbow_calls w
     ++ map (λ component,
               mk_ElbowCall (seq 0 n_features) (rev (np_sort (map num_abs component)))
                            S me None None None kwargs)
            (take (Z.to_nat k) (nd_rows (components_ svd))))%list.
Proof.
  intros Hfit Hrows n_features me locator w1 w2 out. subst out w2 w1 locator.
  rewrite pca_run. cbv zeta. rewrite Hfit. cbn [snd].
  set (w1 := mk_World _ _ _).
  set (d := mk_pca_dict (Some (explained_variance_ svd))
                        (Some (explained_variance_ratio_ svd)) None None).
  assert (uns (adata w1) !! "pca" = Some d) as Hd
    by (subst w1; cbn [adata uns]; apply lookup_insert_eq).
  rewrite (select_pcs_explicit_run (λ c, inr (elbow_of c)) k S curve direction online
             min_elbow kwargs w1 d Hd). cbn [snd].
  set (w2 := mk_World _ _ _).
  rewrite (calls_once_per_component elbow_of np_argsort S curve direction online
             min_elbow kwargs w2 (set_n_pcs (Some k) d) k
             (nd_transpose (components_ svd)));
    [|subst w2 w1; cbn [adata set_uns uns varm]; try apply lookup_insert_eq; done..].
  subst w2 w1. cbn [elbow_calls]. f_equal.
  assert (nd_shape0 (nd_transpose (components_ svd)) = n_features) as Hshape.
  { unfold nd_shape0, nd_transpose. cbn [nd_rows]. by rewrite length_map, length_seq. }
  rewrite Hshape. fold me.
  change (nd_ncols (nd_transpose (components_ svd)))
    with (length (nd_rows (components_ svd))).
  apply map_positions_as_rows. intros i row Hi.
  unfold component_call. rewrite Hshape. do 2 f_equal.
  f_equal. f_equal. apply transpose_column; [done|].
  rewrite Forall_forall in Hrows. apply Hrows. by eapply list_elem_of_lookup_2.
Qed.

Lemma selection_after_pca_ranks_the_fitted_components_witness :
  let me := default (num_div (num_of_nat 6) (num_of_Z 10)) None in
  let locator := λ c : ElbowCall, inr (Some 3%Z) in
  let w1 := (pca (fit_const (inr two_fitted)) 2 "randomized" 5 2021 (num_of_Z 0)
               (start six_features)).2 in
  let w2 := (select_pcs locator (Some 1%Z) (num_of_Z 1) "convex" "decreasing" false
               None ∅ w1).2 in
  let out := select_pcs_features locator argsort_by_position
               (num_of_Z 1) "convex" "decreasing" false None ∅ w2 in
  elbow_calls out.2
  = ([] ++ map (λ component,
                 mk_ElbowCall (seq 0 6) (rev (np_sort (map num_abs component)))
                              (num_of_Z 1) me None None None ∅)
              (take (Z.to_nat 1) (nd_rows (components_ two_fitted))))%list.
Proof.
  apply (selection_after_pca_ranks_the_fitted_components (fit_const (inr two_fitted))
           (λ _, Some 3%Z) argsort_by_position 2 "randomized" 5 2021 (num_of_Z 0)
           (num_of_Z 1) "convex" "decreasing" false None ∅
           (start six_features) two_fitted 1).
  - reflexivity.
  - repeat constructor.
Defined.

(** ** Counts and the truncation of the filters *)






(** On a matrix with a fraction the two ways part: the one sample has 3/2
    counts, which the filter's own metric truncates to 1. *)
Example truncation_shows_on_fractions :
  let a := empty_adata [[Fin (Q2Qc (3 # 2))]] ["s0"] ["g0"] in
  let thr := Some (Fin (Q2Qc (3 # 2))) in
  obs_names (adata (filter_samples None None None None thr None (num_of_Z 1)
                      (start a)).2) = []
  ∧ obs_names (adata (filter_samples None None None None thr None (num_of_Z 1)
                        (cal_qc (num_of_Z 1) (start a)).2).2) = ["s0"].
Proof. vm_compute. split; reflexivity. Qed.

(** ** The metrics and the container's invariant *)

Lemma well_formed_columns a a' :
  well_formed a →
  X a' = X a → obs_names a' = obs_names a → var_names a' = var_names a →
  (∀ k c, obs a' !! k = Some c →
          obs a !! k = Some c ∨ length (col_values c) = length (obs_names a)) →
  (∀ k c, var a' !! k = Some c →
          var a !! k = Some c ∨ length (col_values c) = length (var_names a)) →
  well_formed a'.
Proof.
  intros [[Hx Ho] [Hr Hv]] HX Hon Hvn Hobs Hvar.
  unfold well_formed, aligned, table, axis_names in *. rewrite HX, Hon, Hvn.
  split; (split; [done|]); intros k c Hk.
  - destruct (Hobs k c Hk) as [H|H]; eauto.
  - destruct (Hvar k c Hk) as [H|H]; eauto.
Qed.

Lemma length_sum_axis0 n rows : length (sum_axis0 n rows) = n.
Proof. unfold sum_axis0. by rewrite length_map, length_seq. Qed.

Lemma length_sum_axis1 rows : length (sum_axis1 rows) = length rows.
Proof. unfold sum_axis1. by rewrite length_map. Qed.

Ltac column_cases H :=
  repeat (apply lookup_insert_Some in H as [[_ <-]|[_ H]]);
  [right; cbn [col_values];
   rewrite ?length_zip_with, ?length_map, ?length_replicate, ?length_sum_axis0,
           ?length_sum_axis1, ?length_ge_cutoff, ?length_map; try done; try lia ..
  |by left].

(** X23: the three functions that store metrics keep the container's
    invariant: on a dataset whose matrix and metadata columns have one line
    per name along both axes they leave a dataset of that kind, every
    stored column having one entry per sample or per feature; so does the
    run of [cal_qc_rna] that ends in the exception of its pattern. *)
Theorem qc_functions_keep_the_dataset_well_formed
    (f : num → M unit) (expr_cutoff : num) (w : World) :
  f ∈ qc_functions →
  well_formed (adata w) →
  well_formed (adata (f expr_cutoff w).2)
  ∧ X (adata (f expr_cutoff w).2) = X (adata w)
  ∧ obs_names (adata (f expr_cutoff w).2) = obs_names (adata w)
  ∧ var_names (adata (f expr_cutoff w).2) = var_names (adata w).
Proof.
  intros Hf Hw. unfold qc_functions in Hf.
  assert (length (X (adata w)) = length (obs_names (adata w))) as Hlen
    by (destruct Hw as [[Hx _] _]; exact Hx).
  destruct w as [a calls out]. destruct a as [Xa on vn ob va la om vm un].
  cbn [adata X obs_names] in Hlen.
  repeat (apply elem_of_cons in Hf as [->|Hf]); [..|by apply elem_of_nil in Hf].
  - run_qc. split; [|done].
    eapply well_formed_columns; [exact Hw|done..| |];
      cbn [adata obs var obs_names var_names]; intros k c H; column_cases H.
  - run_qc. destruct vn as [|s rest]; run_qc.
    + cbn [length bool_decide]. rewrite bool_decide_eq_false_2 by (cbn; lia).
      cbn [fst snd adata X obs_names var_names]. split; [|done].
      eapply well_formed_columns; [exact Hw|done..| |];
        cbn [adata obs var obs_names var_names]; intros k c H; column_cases H.
    + split; [|done].
      eapply well_formed_columns; [exact Hw|done..| |];
        cbn [adata obs var obs_names var_names]; intros k c H; column_cases H.
  - run_qc. split; [|done].
    eapply well_formed_columns; [exact Hw|done..| |];
      cbn [adata obs var obs_names var_names]; intros k c H; column_cases H.
Qed.

Lemma qc_functions_keep_the_dataset_well_formed_witness :
  well_formed (adata (cal_qc_rna (num_of_Z 1) (start counts_3x3)).2)
  ∧ X (adata (cal_qc_rna (num_of_Z 1) (start counts_3x3)).2) = X counts_3x3
  ∧ obs_names (adata (cal_qc_rna (num_of_Z 1) (start counts_3x3)).2)
    = obs_names counts_3x3
  ∧ var_names (adata (cal_qc_rna (num_of_Z 1) (start counts_3x3)).2)
    = var_names counts_3x3.
Proof.
  apply (qc_functions_keep_the_dataset_well_formed cal_qc_rna (num_of_Z 1)
           (start counts_3x3)).
  - unfold qc_functions. apply elem_of_cons; right. apply elem_of_cons. by left.
  - split; (split; [cbn; repeat constructor|]);
      intros k c' H; change ((∅ : gmap string column) !! k = Some c') in H;
      by rewrite lookup_empty in H.
Defined.

(** ** Tighter thresholds *)

Lemma num_ge_trans x y z : num_ge x y = true → num_ge y z = true → num_ge x z = true.
Proof.
  destruct x as [x| | |], y as [y| | |], z as [z| | |]; cbn; try done.
  intros H1 H2. apply bool_decide_eq_true_1 in H1. apply bool_decide_eq_true_1 in H2.
  apply bool_decide_eq_true_2. by transitivity y.
Qed.

Lemma apply_threshold_mono test thr thr' v s s' :
  (∀ a, thr = Some a → ∃ b, thr' = Some b ∧ ∀ x, test x b = true → test x a = true) →
  mask_sub s' s →
  mask_sub (apply_threshold thr' test v s') (apply_threshold thr test v s).
Proof.
  intros Hthr Hs. destruct thr as [a|].
  - destruct (Hthr a eq_refl) as (b & -> & Hab). intros i Hi. cbn in *.
    apply np_and_true in Hi as [Hv Hi]. apply Hs in Hi.
    unfold np_and. rewrite lookup_zip_with, Hi.
    rewrite list_lookup_fmap in Hv. rewrite list_lookup_fmap.
    destruct (v !! i) as [x|]; [|done]. cbn in *.
    injection Hv as Hv. by rewrite (Hab x Hv).
  - eapply mask_sub_trans; [apply apply_threshold_sub|exact Hs].
Qed.

Lemma tighter_min_test t t' :
  tighter_min t t' →
  ∀ a, t = Some a → ∃ b, t' = Some b ∧ ∀ x, num_ge x b = true → num_ge x a = true.
Proof.
  intros H a ->. destruct t' as [b|]; [|done]. exists b. split; [done|].
  intros x Hx. by eapply num_ge_trans.
Qed.

Lemma tighter_max_test t t' :
  tighter_max t t' →
  ∀ a, t = Some a → ∃ b, t' = Some b ∧ ∀ x, num_le x b = true → num_le x a = true.
Proof.
  intros H a ->. destruct t' as [b|]; [|done]. exists b. split; [done|].
  unfold num_le. intros x Hx. cbn in H. unfold num_le in H. by eapply num_ge_trans.
Qed.

Lemma filter_mask_mono t1 t2 t3 t4 t5 t6 t1' t2' t3' t4' t5' t6' vc vn vp size :
  tighter_min t1 t1' → tighter_max t2 t2' → tighter_min t3 t3' →
  tighter_max t4 t4' → tighter_min t5 t5' → tighter_max t6 t6' →
  mask_sub (filter_mask t1' t2' t3' t4' t5' t6' vc vn vp size)
           (filter_mask t1 t2 t3 t4 t5 t6 vc vn vp size).
Proof.
  intros H1 H2 H3 H4 H5 H6. unfold filter_mask.
  apply apply_threshold_mono; [by apply tighter_max_test|].
  apply apply_threshold_mono; [by apply tighter_min_test|].
  apply apply_threshold_mono; [by apply tighter_max_test|].
  apply apply_threshold_mono; [by apply tighter_min_test|].
  apply apply_threshold_mono; [by apply tighter_max_test|].
  apply apply_threshold_mono; [by apply tighter_min_test|].
  apply mask_sub_refl.
Qed.

Lemma mask_sub_cons b' b m' m :
  mask_sub (b' :: m') (b :: m) → (b' = true → b = true) ∧ mask_sub m' m.
Proof.
  intros H. split.
  - intros ->. specialize (H 0%nat eq_refl). by injection H.
  - intros i Hi. exact (H (Datatypes.S i) Hi).
Qed.

Lemma mask_filter_sublist {A} (l : list A) :
  ∀ m' m, mask_sub m' m → mask_filter m' l `sublist_of` mask_filter m l.
Proof.
  induction l as [|x l IH]; intros m' m Hs.
  - destruct m' as [|[] ?]; cbn; apply sublist_nil_l.
  - destruct m' as [|b' m']; [apply sublist_nil_l|].
    destruct m as [|b m].
    + assert (b' = false) as ->.
      { destruct b'; [|done]. specialize (Hs 0%nat eq_refl). done. }
      cbn [mask_filter]. apply (IH m' []).
      intros i Hi. specialize (Hs (Datatypes.S i) Hi). done.
    + apply mask_sub_cons in Hs as [Hb Hs]. cbn [mask_filter].
      destruct b'.
      * rewrite Hb by done. apply sublist_skip. by apply IH.
      * destruct b; [apply sublist_cons|]; by apply IH.
Qed.

Lemma mask_filter_sublist_all {A} m (l : list A) : mask_filter m l `sublist_of` l.
Proof.
  revert m. induction l as [|x l IH]; intros [|[] m]; cbn;
    try apply sublist_nil_l.
  - by apply sublist_skip.
  - by apply sublist_cons.
Qed.

(** The columns a filter works with do not depend on its thresholds. *)
Lemma filter_axis_run_uniform ax based after nk pk sl cutoff w :
  aligned ax (adata w) →
  ∃ vc vn vp a',
    axis_names ax a' = axis_names ax (adata w) ∧
    ∀ min_n max_n min_pct max_pct min_n_counts max_n_counts,
    ∃ w',
      filter_axis ax based after nk pk sl
        min_n max_n min_pct max_pct min_n_counts max_n_counts cutoff w = (inr (), w')
      ∧ adata w' =
          if all_unset [min_n; min_pct; min_n_counts; max_n; max_pct; max_n_counts]
          then a'
          else inplace_subset ax
                 (filter_mask min_n max_n min_pct max_pct min_n_counts max_n_counts
                    vc vn vp (length (axis_names ax a'))) a'.
Proof.
  intros Hal.
  destruct (cached_spec ax "n_counts"
              (λ a, map astype_int (sum_along ax a (X a))) w Hal)
    as (cc & w1 & E1 & U1 & O1 & K1 & A1 & M1).
  { rewrite length_map. by apply length_sum_along. }
  destruct (cached_spec ax nk
              (λ a, map astype_int (sum_along ax a (ge_cutoff cutoff (X a)))) w1 A1)
    as (cn & w2 & E2 & U2 & O2 & K2 & A2 & M2).
  { rewrite length_map. apply length_sum_along; [done|apply length_ge_cutoff]. }
  destruct (cached_spec ax pk
              (λ a, map (λ v, num_div v (num_of_nat (other_size ax a))) (col_values cn))
              w2 A2)
    as (cp & w3 & E3 & U3 & O3 & K3 & A3 & M3).
  { rewrite length_map. exact (proj2 A2 _ _ K2). }
  assert (untouched w w3) as U
    by (eapply untouched_trans; [exact U1|]; eapply untouched_trans; eauto).
  exists (col_values cc), (col_values cn), (col_values cp), (adata w3).
  split; [by apply untouched_names|].
  intros min_n max_n min_pct max_pct min_n_counts max_n_counts.
  unfold filter_axis.
  rewrite (bind_inr _ _ _ _ _ E1), (bind_inr _ _ _ _ _ E2), (bind_inr _ _ _ _ _ E3).
  destruct (all_unset _).
  { eexists. split; [reflexivity|]. done. }
  rewrite (bind_inr get_adata _ w3 (adata w3) w3) by reflexivity.
  do 6 step_threshold.
  eexists. split; [reflexivity|]. cbn. unfold filter_mask. congruence.
Qed.

Lemma filter_axis_tighter ax based after nk pk sl
    t1 t2 t3 t4 t5 t6 t1' t2' t3' t4' t5' t6' cutoff w :
  aligned ax (adata w) →
  tighter_min t1 t1' → tighter_max t2 t2' → tighter_min t3 t3' →
  tighter_max t4 t4' → tighter_min t5 t5' → tighter_max t6 t6' →
  axis_names ax (adata (filter_axis ax based after nk pk sl
                          t1' t2' t3' t4' t5' t6' cutoff w).2)
  `sublist_of`
  axis_names ax (adata (filter_axis ax based after nk pk sl
                          t1 t2 t3 t4 t5 t6 cutoff w).2).
Proof.
  intros Hal H1 H2 H3 H4 H5 H6.
  destruct (filter_axis_run_uniform ax based after nk pk sl cutoff w Hal)
    as (vc & vn & vp & a' & _ & Hrun).
  destruct (Hrun t1 t2 t3 t4 t5 t6) as (w1 & -> & R1).
  destruct (Hrun t1' t2' t3' t4' t5' t6') as (w2 & -> & R2).
  cbn [snd]. rewrite R1, R2. clear R1 R2 Hrun.
  destruct (all_unset [t1; t3; t5; t2; t4; t6]) eqn:Hu.
  - destruct (all_unset [t1'; t3'; t5'; t2'; t4'; t6']); [reflexivity|].
    rewrite subset_names. apply mask_filter_sublist_all.
  - destruct (all_unset [t1'; t3'; t5'; t2'; t4'; t6']) eqn:Hu'.
    + apply all_unset_inv in Hu' as (-> & -> & -> & -> & -> & ->).
      destruct t1, t2, t3, t4, t5, t6; done.
    + rewrite !subset_names. apply mask_filter_sublist. by apply filter_mask_mono.
Qed.

(** X24: tightening the thresholds of a filter never keeps more: when
    every bound of a second choice of thresholds asks at least what the
    first asks (an unset bound asking nothing), the names the filter keeps
    under the second choice are, in their order, among those it keeps under
    the first. *)
Theorem tighter_thresholds_keep_fewer
    (ax : axis) (n_key pct_key : string)
    (f : option num → option num → option num → option num →
         option num → option num → num → M unit)
    (min_n max_n min_pct max_pct min_n_counts max_n_counts : option num)
    (min_n' max_n' min_pct' max_pct' min_n_counts' max_n_counts' : option num)
    (c : num) (w : World) :
  (ax, n_key, pct_key, f) ∈ filters_with_keys →
  aligned ax (adata w) →
  tighter_min min_n min_n' → tighter_max max_n max_n' →
  tighter_min min_pct min_pct' → tighter_max max_pct max_pct' →
  tighter_min min_n_counts min_n_counts' → tighter_max max_n_counts max_n_counts' →
  axis_names ax
    (adata (f min_n' max_n' min_pct' max_pct' min_n_counts' max_n_counts' c w).2)
  `sublist_of`
  axis_names ax (adata (f min_n max_n min_pct max_pct min_n_counts max_n_counts c w).2).
Proof.
  intros Hf Hal H1 H2 H3 H4 H5 H6. unfold filters_with_keys in Hf.
  repeat (apply elem_of_cons in Hf as [Heq|Hf]);
    [..|by apply elem_of_nil in Hf];
    injection Heq as -> -> -> ->; by apply filter_axis_tighter.
Qed.

Lemma tighter_thresholds_keep_fewer_witness :
  axis_names Samples
    (adata (filter_samples (Some (num_of_Z 2)) None None None (Some (num_of_Z 5)) None
              (num_of_Z 1) (start counts_10x5)).2)
  `sublist_of`
  axis_names Samples
    (adata (filter_samples (Some (num_of_Z 1)) None None None None None
              (num_of_Z 1) (start counts_10x5)).2).
Proof.
  apply (tighter_thresholds_keep_fewer Samples "n_features" "pct_features" filter_samples
           (Some (num_of_Z 1)) None None None None None
           (Some (num_of_Z 2)) None None None (Some (num_of_Z 5)) None
           (num_of_Z 1) (start counts_10x5)).
  - unfold filters_with_keys. apply elem_of_cons. by left.
  - split; [reflexivity|]. intros k c' H.
    change ((∅ : gmap string column) !! k = Some c') in H.
    by rewrite lookup_empty in H.
  - vm_compute. reflexivity.
  - exact I.
  - exact I.
  - exact I.
  - exact I.
  - exact I.
Defined.

(** ** A second selection of features *)

Lemma AnnData_eq a b :
  X a = X b → obs_names a = obs_names b → var_names a = var_names b →
  obs a = obs b → var a = var b → layers a = layers b →
  obsm a = obsm b → varm a = varm b → uns a = uns b → a = b.
Proof. destruct a, b. cbn. by intros -> -> -> -> -> -> -> -> ->. Qed.

Section Repeat.
Variable locate_elbow : ElbowCall → exn + option Z.
Variable np_argsort : list num → list nat.

Lemma body_index_error S me kwargs nf i acc w P :
  varm (adata w) !! "PCs" = Some P → (nd_ncols P ≤ i)%nat →
  select_pcs_features_body locate_elbow np_argsort S me kwargs nf i acc w
  = (inl IndexError, w).
Proof.
  intros HP Hi. unfold select_pcs_features_body.
  rewrite (bind_inr get_adata _ w (adata w) w) by reflexivity.
  rewrite HP. rewrite (bind_inr (lift_option _ (Some P)) _ w P w) by reflexivity.
  by rewrite bool_decide_eq_true_2.
Qed.

Lemma body_key_error S me kwargs nf i acc w :
  varm (adata w) !! "PCs" = None →
  select_pcs_features_body locate_elbow np_argsort S me kwargs nf i acc w
  = (inl (KeyError "PCs"), w).
Proof.
  intros HP. unfold select_pcs_features_body.
  rewrite (bind_inr get_adata _ w (adata w) w) by reflexivity. by rewrite HP.
Qed.

(** One round of the loop reads nothing of the feature table, and keeps in
    [adata.uns['pca']] all but the lists of features. *)
Lemma body_repeatable S me kwargs nf i acc w w' v d pcs u :
  adata w' = set_var v (adata w) →
  uns (adata w) = <["pca" := set_features pcs d]> u →
  let out := select_pcs_features_body locate_elbow np_argsort S me kwargs nf i acc w in
  let out' := select_pcs_features_body locate_elbow np_argsort S me kwargs nf i acc w' in
  out'.1 = out.1
  ∧ adata out'.2 = set_var v (adata out.2)
  ∧ var (adata out.2) = var (adata w)
  ∧ ∃ pcs', uns (adata out.2) = <["pca" := set_features pcs' d]> u.
Proof.
  intros Hw' Huns out out'. subst out out'.
  assert (varm (adata w') = varm (adata w)) as Hvarm by (by rewrite Hw').
  assert (uns (adata w') = uns (adata w)) as Huns' by (by rewrite Hw').
  destruct (varm (adata w) !! "PCs") as [P|] eqn:HP.
  2:{ rewrite (body_key_error _ _ _ _ _ _ w HP).
      rewrite (body_key_error _ _ _ _ _ _ w') by (by rewrite Hvarm). eauto. }
  destruct (decide (i < nd_ncols P)%nat) as [Hi|Hi].
  2:{ rewrite (body_index_error _ _ _ _ _ _ w P HP) by lia.
      rewrite (body_index_error _ _ _ _ _ _ w' P) by (rewrite ?Hvarm; done || lia).
      eauto. }
  rewrite (body_run locate_elbow np_argsort S me kwargs nf i acc w P HP Hi).
  rewrite (body_run locate_elbow np_argsort S me kwargs nf i acc w' P)
    by (rewrite ?Hvarm; done).
  cbv zeta. destruct (locate_elbow _) as [e|elbow]; [cbn [fst snd adata]; eauto|].
  rewrite Huns', Huns, lookup_insert_eq. cbn [features set_features fst snd adata].
  split; [done|]. rewrite Hw'. split; [done|]. split; [done|].
  cbn [set_uns uns]. rewrite insert_insert_eq. eauto.
Qed.

Lemma loop_repeatable S me kwargs nf js :
  ∀ acc w w' v d pcs u,
    adata w' = set_var v (adata w) →
    uns (adata w) = <["pca" := set_features pcs d]> u →
    let body := select_pcs_features_body locate_elbow np_argsort S me kwargs nf in
    let out := for_loop body js acc w in
    let out' := for_loop body js acc w' in
    out'.1 = out.1
    ∧ adata out'.2 = set_var v (adata out.2)
    ∧ var (adata out.2) = var (adata w)
    ∧ ∃ pcs', uns (adata out.2) = <["pca" := set_features pcs' d]> u.
Proof.
  induction js as [|i js IH]; intros acc w w' v d pcs u Hw' Huns body out out';
    subst out out' body.
  - cbn [for_loop]. cbn. eauto.
  - cbn [for_loop]. unfold mbind, M_bind.
    destruct (body_repeatable S me kwargs nf i acc w w' v d pcs u Hw' Huns)
      as (H1 & H2 & H3 & pcs1 & H4).
    cbv zeta in H1, H2, H3, H4.
    destruct (select_pcs_features_body _ _ _ _ _ _ _ _ w) as [[e|acc1] w1].
    + destruct (select_pcs_features_body _ _ _ _ _ _ _ _ w') as [[e'|acc1'] w1'];
        cbn [fst snd] in *; [|discriminate H1]. eauto.
    + destruct (select_pcs_features_body _ _ _ _ _ _ _ _ w') as [[e'|acc1'] w1'];
        cbn [fst snd] in *; [discriminate H1|]. injection H1 as ->.
      fold (@mbind M _).
      destruct (IH acc1 w1 w1' v d pcs1 u H2 H4) as (I1 & I2 & I3 & I4).
      cbv zeta in I1, I2, I3, I4. split; [done|]. split; [done|].
      split; [congruence|done].
Qed.

Lemma write_top_pcs_var_blind ids w :
  ∃ r c,
    write_top_pcs ids w
    = (r, mk_World (set_var (<["top_pcs" := c]> (var (adata w))) (adata w))
                   (elbow_calls w) (stdout w))
    ∧ ∀ w' v, adata w' = set_var v (adata w) →
        (write_top_pcs ids w').1 = r
        ∧ adata (write_top_pcs ids w').2 = set_var (<["top_pcs" := c]> v) (adata w).
Proof.
  rewrite write_top_pcs_run. cbv zeta.
  destruct (bool_decide (np_unique ids = [])) eqn:Hnil.
  { eexists _, _. split; [reflexivity|]. intros w' v Hw'.
    rewrite write_top_pcs_run. cbv zeta. rewrite Hnil, Hw'. done. }
  destruct (mapM _ _) as [labels|] eqn:Hlab.
  - eexists _, _. split; [reflexivity|]. intros w' v Hw'.
    rewrite write_top_pcs_run. cbv zeta. rewrite Hnil, Hw'.
    cbn [var_names set_var]. rewrite Hlab. done.
  - eexists _, _. split; [reflexivity|]. intros w' v Hw'.
    rewrite write_top_pcs_run. cbv zeta. rewrite Hnil, Hw'.
    cbn [var_names set_var]. rewrite Hlab. done.
Qed.

(** X25: [select_pcs_features] can be repeated: it clears what an earlier
    run recorded before it records anew, so a second call, with the same
    arguments and whatever way the first one ended, ends the same way and
    leaves the dataset as the first call left it. *)
Theorem select_pcs_features_can_be_repeated
    (S : num) (curve direction : string) (online : bool)
    (min_elbow : option num) (kwargs : gmap string num) (w : World) :
  let run := select_pcs_features locate_elbow np_argsort
               S curve direction online min_elbow kwargs in
  (run (run w).2).1 = (run w).1 ∧ adata (run (run w).2).2 = adata (run w).2.
Proof.
  intros run.
  assert (∀ e, run w = (inl e, w) →
            (run (run w).2).1 = (run w).1 ∧ adata (run (run w).2).2 = adata (run w).2)
    as Hstop.
  { intros e He. rewrite He. cbn [snd]. by rewrite He. }
  destruct (uns (adata w) !! "pca") as [d|] eqn:Hd.
  2:{ destruct (select_pcs_features_stops locate_elbow np_argsort
                  S curve direction online min_elbow kwargs w) as (e & He);
        [intros; congruence|]. by apply (Hstop e). }
  destruct (n_pcs d) as [n|] eqn:Hn.
  2:{ destruct (select_pcs_features_stops locate_elbow np_argsort
                  S curve direction online min_elbow kwargs w) as (e & He);
        [intros; congruence|]. by apply (Hstop e). }
  destruct (varm (adata w) !! "PCs") as [P|] eqn:HP.
  2:{ destruct (select_pcs_features_stops locate_elbow np_argsort
                  S curve direction online min_elbow kwargs w) as (e & He);
        [intros; congruence|]. by apply (Hstop e). }
  clear Hstop.
  assert (∀ w1 pcs1,
            varm (adata w1) = varm (adata w) →
            uns (adata w1) = <["pca" := set_features pcs1 d]> (uns (adata w)) →
            run w1
            = match n with
              | None =>
                  (inl (TypeError "'NoneType' object cannot be interpreted as an integer"),
                   mk_World (set_uns (<["pca" := set_features ∅ d]> (uns (adata w)))
                               (adata w1))
                            (elbow_calls w1) (stdout w1))
              | Some k =>
                  (for_loop (select_pcs_features_body locate_elbow np_argsort S
                               (default (num_div (num_of_nat (nd_shape0 P)) (num_of_Z 10))
                                        min_elbow)
                               kwargs (nd_shape0 P)) (seq 0 (Z.to_nat k)) []
                   ≫= write_top_pcs)
                    (mk_World (set_uns (<["pca" := set_features ∅ d]> (uns (adata w)))
                                 (adata w1))
                              (elbow_calls w1) (stdout w1))
              end) as Hrun.
  { intros w1 pcs1 Hvarm Huns. subst run.
    rewrite (select_pcs_features_run locate_elbow np_argsort S curve direction online
               min_elbow kwargs w1 (set_features pcs1 d) n P);
      [|by rewrite Huns, lookup_insert_eq|exact Hn|by rewrite Hvarm].
    cbv zeta. rewrite Huns, insert_insert_eq.
    by change (set_features ∅ (set_features pcs1 d)) with (set_features ∅ d). }
  set (w0 := mk_World (set_uns (<["pca" := set_features ∅ d]> (uns (adata w))) (adata w))
                      (elbow_calls w) (stdout w)).
  assert (run w = match n with
                  | None =>
                      (inl (TypeError
                              "'NoneType' object cannot be interpreted as an integer"), w0)
                  | Some k =>
                      (for_loop (select_pcs_features_body locate_elbow np_argsort S
                                   (default (num_div (num_of_nat (nd_shape0 P))
                                               (num_of_Z 10)) min_elbow)
                                   kwargs (nd_shape0 P)) (seq 0 (Z.to_nat k)) []
                       ≫= write_top_pcs) w0
                  end) as Hfirst.
  { subst run. by rewrite (select_pcs_features_run _ _ _ _ _ _ _ _ _ _ _ _ Hd Hn HP). }
  destruct n as [k|].
  2:{ rewrite Hfirst. cbn [fst snd].
      rewrite (Hrun w0 ∅); [| done | done]. cbn [fst snd adata]. split; [done|].
      subst w0. cbn [adata set_uns]. done. }
  set (me := default _ _) in *.
  set (body := select_pcs_features_body locate_elbow np_argsort S me kwargs (nd_shape0 P))
    in *.
  assert (uns (adata w0) = <["pca" := set_features ∅ d]> (uns (adata w))) as Huns0
    by done.
  destruct (loop_calls locate_elbow np_argsort S me kwargs (nd_shape0 P)
              (seq 0 (Z.to_nat k)) [] w0) as (U & _).
  fold body in U.
  destruct (loop_repeatable S me kwargs (nd_shape0 P) (seq 0 (Z.to_nat k)) [] w0 w0
              (var (adata w0)) d ∅ (uns (adata w)))
    as (_ & _ & Hvar1 & pcs1 & Huns1); [by destruct w as [[] ? ?]|done|].
  cbv zeta in Hvar1, Huns1. fold body in Hvar1, Huns1.
  assert (∀ w1 v,
            X (adata w1) = X (adata w) → obs_names (adata w1) = obs_names (adata w) →
            var_names (adata w1) = var_names (adata w) → obs (adata w1) = obs (adata w) →
            layers (adata w1) = layers (adata w) → obsm (adata w1) = obsm (adata w) →
            varm (adata w1) = varm (adata w) → var (adata w1) = v →
            adata (mk_World (set_uns (<["pca" := set_features ∅ d]> (uns (adata w)))
                               (adata w1)) (elbow_calls w1) (stdout w1))
            = set_var v (adata w0)) as Hreset.
  { intros w1 v ? ? ? ? ? ? ? ?. subst w0. apply AnnData_eq; cbn; congruence. }
  destruct U as (UX & Uon & Uvn & Ul & Uom & Uvm & Uo & _).
  subst w0. cbn [adata set_uns X obs_names var_names obs var layers obsm varm]
    in UX, Uon, Uvn, Ul, Uom, Uvm, Uo, Hvar1.
  set (w0 := mk_World (set_uns (<["pca" := set_features ∅ d]> (uns (adata w))) (adata w))
                      (elbow_calls w) (stdout w)) in *.
  rewrite Hfirst.
  destruct (for_loop body (seq 0 (Z.to_nat k)) [] w0) as [[e|ids] w1] eqn:Hloop;
    cbn [fst snd] in *.
  - assert ((for_loop body (seq 0 (Z.to_nat k)) [] ≫= write_top_pcs) w0 = (inl e, w1))
      as -> by (unfold mbind, M_bind; by rewrite Hloop).
    cbn [fst snd]. rewrite (Hrun w1 pcs1 Uvm Huns1).
    set (w0' := mk_World _ (elbow_calls w1) (stdout w1)).
    destruct (loop_repeatable S me kwargs (nd_shape0 P) (seq 0 (Z.to_nat k)) [] w0 w0'
                (var (adata w1)) d ∅ (uns (adata w)))
      as (L1 & L2 & _); [by apply Hreset|done|].
    cbv zeta in L1, L2. fold body in L1, L2. rewrite Hloop in L1, L2.
    cbn [fst snd] in L1, L2. unfold mbind, M_bind.
    destruct (for_loop body (seq 0 (Z.to_nat k)) [] w0') as [[e'|ids'] w1'];
      cbn [fst snd] in *; [|discriminate L1].
    injection L1 as ->. split; [done|]. rewrite L2. by destruct (adata w1).
  - assert ((for_loop body (seq 0 (Z.to_nat k)) [] ≫= write_top_pcs) w0
            = write_top_pcs ids w1)
      as -> by (unfold mbind, M_bind; by rewrite Hloop).
    destruct (write_top_pcs_var_blind ids w1) as (r & c & Hw & Hblind).
    rewrite Hw. cbn [fst snd].
    set (wf := mk_World _ (elbow_calls w1) (stdout w1)).
    rewrite (Hrun wf pcs1); [|subst wf; cbn [adata set_var varm uns]; done..].
    set (w0' := mk_World _ (elbow_calls wf) (stdout wf)).
    destruct (loop_repeatable S me kwargs (nd_shape0 P) (seq 0 (Z.to_nat k)) [] w0 w0'
                (<["top_pcs" := c]> (var (adata w1))) d ∅ (uns (adata w)))
      as (L1 & L2 & _);
      [apply Hreset; subst wf; cbn [adata set_var X obs_names var_names obs var layers
                                     obsm varm]; done|done|].
    cbv zeta in L1, L2. fold body in L1, L2. rewrite Hloop in L1, L2.
    cbn [fst snd] in L1, L2. unfold mbind, M_bind.
    destruct (for_loop body (seq 0 (Z.to_nat k)) [] w0') as [[e'|ids'] w1'];
      cbn [fst snd] in *; [discriminate L1|]. injection L1 as ->.
    destruct (Hblind w1' _ L2) as (B1 & B2).
    split; [done|]. rewrite B2. subst wf. cbn [adata]. by rewrite insert_insert_eq.
Qed.
End Repeat.

(** ** Metrics computed twice *)

Lemma insert_three_again {V} (k1 k2 k3 : string) (v1 v2 v3 : V) (m : gmap string V) :
  <[k3 := v3]> (<[k2 := v2]> (<[k1 := v1]>
     (<[k3 := v3]> (<[k2 := v2]> (<[k1 := v1]> m)))))
  = <[k3 := v3]> (<[k2 := v2]> (<[k1 := v1]> m)).
Proof.
  apply map_eq. intros k. rewrite !lookup_insert. by repeat case_decide.
Qed.

Lemma insert_four_again {V} (k1 k2 k3 k4 : string) (v1 v2 v3 v4 : V)
    (m : gmap string V) :
  <[k4 := v4]> (<[k3 := v3]> (<[k2 := v2]> (<[k1 := v1]>
     (<[k4 := v4]> (<[k3 := v3]> (<[k2 := v2]> (<[k1 := v1]> m)))))))
  = <[k4 := v4]> (<[k3 := v3]> (<[k2 := v2]> (<[k1 := v1]> m))).
Proof.
  apply map_eq. intros k. rewrite !lookup_insert. by repeat case_decide.
Qed.

(** X26: the three functions that store metrics compute them from the
    matrix every time and overwrite what is stored: a second call with the
    same cutoff ends as the first did and leaves the dataset as the first
    call left it. *)
Theorem qc_functions_can_be_repeated
    (f : num → M unit) (expr_cutoff : num) (w : World) :
  f ∈ qc_functions →
  (f expr_cutoff (f expr_cutoff w).2).1 = (f expr_cutoff w).1
  ∧ adata (f expr_cutoff (f expr_cutoff w).2).2 = adata (f expr_cutoff w).2.
Proof.
  intros Hf. unfold qc_functions in Hf.
  destruct w as [a calls out]. destruct a as [Xa on vn ob va la om vm un].
  repeat (apply elem_of_cons in Hf as [->|Hf]); [..|by apply elem_of_nil in Hf].
  - run_qc. split; [done|]. by rewrite !insert_three_again.
  - run_qc. destruct vn as [|s rest]; run_qc.
    + cbn [length bool_decide]. rewrite !bool_decide_eq_false_2 by (cbn; lia).
      cbn [fst snd adata obs var set_obs X obs_names var_names layers obsm varm uns].
      split; [done|]. by rewrite insert_three_again, insert_four_again.
    + split; [done|]. by rewrite !insert_three_again.
  - run_qc. split; [done|]. by rewrite !insert_three_again.
Qed.

Lemma qc_functions_can_be_repeated_witness :
  (cal_qc_atac (num_of_Z 1) (cal_qc_atac (num_of_Z 1) (start counts_3x3)).2).1
  = (cal_qc_atac (num_of_Z 1) (start counts_3x3)).1
  ∧ adata (cal_qc_atac (num_of_Z 1) (cal_qc_atac (num_of_Z 1) (start counts_3x3)).2).2
    = adata (cal_qc_atac (num_of_Z 1) (start counts_3x3)).2.
Proof.
  apply (qc_functions_can_be_repeated cal_qc_atac (num_of_Z 1) (start counts_3x3)).
  unfold qc_functions. do 2 (apply elem_of_cons; right). apply elem_of_cons. by left.
Defined.
